(** * LocalTaskStore: the JSON-backed task metadata store of
      [backend/storage.py], embedded shallowly.

    A task record is a Python [dict] with string keys; the persisted file
    holds [{"tasks": [...]}], an ordered list of such dicts.  The methods
    of [LocalTaskStore] are sequences of three effects: reading the file
    ([_load]), writing it ([_save]) and reading the clock ([_now_iso]).
    They are written once as effect trees ([prog]) and given two
    semantics: [run], where a method runs from its first to its last
    effect without interruption, and [interleave], where a schedule
    chooses which caller performs its next effect. *)

From stdpp Require Import gmap strings list fin_maps sorting.
From Stdlib Require Import ZArith DecimalString.

Open Scope string_scope.
Open Scope list_scope.

(** ** Python values held by a record

    The values that [json.load] produces and the methods test, compare
    or use as keys: [None], booleans, integers and strings.  JSON floats,
    arrays and objects are not represented. *)

Inductive val : Type :=
| VNone
| VBool (b : bool)
| VInt (z : Z)
| VStr (s : string).

#[global] Instance val_eq_dec : EqDecision val.
Proof. solve_decision. Defined.

(** Python truthiness: [None], [False], [0] and [""] are falsy. *)
Definition truthy (v : val) : bool :=
  match v with
  | VNone => false
  | VBool b => b
  | VInt z => negb (z =? 0)%Z
  | VStr s => negb (String.eqb s "")
  end.

(** [a or b]. *)
Definition py_or (a b : val) : val := if truthy a then a else b.

(** What a value is as a [dict] key or under [==]: [True == 1] and
    [False == 0], a string equals only the same string, [None] only
    [None]. *)
Inductive hkey : Type :=
| HNone
| HNum (z : Z)
| HStr (s : string).

#[global] Instance hkey_eq_dec : EqDecision hkey.
Proof. solve_decision. Defined.

Definition hkey_enc (k : hkey) : unit + Z + string :=
  match k with
  | HNone => inl (inl tt)
  | HNum z => inl (inr z)
  | HStr s => inr s
  end.

Definition hkey_dec (x : unit + Z + string) : hkey :=
  match x with
  | inl (inl _) => HNone
  | inl (inr z) => HNum z
  | inr s => HStr s
  end.

#[global] Instance hkey_countable : Countable hkey.
Proof. apply (inj_countable' hkey_enc hkey_dec). by intros []. Defined.

Definition hkey_of (v : val) : hkey :=
  match v with
  | VNone => HNone
  | VBool b => HNum (if b then 1 else 0)
  | VInt z => HNum z
  | VStr s => HStr s
  end.

(** [a == b]. *)
Definition py_eq (a b : val) : bool := bool_decide (hkey_of a = hkey_of b).

(** ** Exceptions and results *)

Inductive exn : Type := ValueError | KeyError | TypeError | IndexError.

Inductive result (A : Type) : Type :=
| Ok (a : A)
| Raise (e : exn).
Arguments Ok {A} a.
Arguments Raise {A} e.

#[global] Instance result_ret : MRet result := @Ok.
#[global] Instance result_bind : MBind result :=
  λ A B f r, match r with Ok a => f a | Raise e => Raise e end.

(** [a < b] and [a <= b]: strings compare lexicographically, booleans
    and integers numerically, every other pairing raises [TypeError]. *)
Definition num_of (v : val) : option Z :=
  match v with
  | VBool b => Some (if b then 1 else 0)%Z
  | VInt z => Some z
  | _ => None
  end.

Definition py_lt (a b : val) : result bool :=
  match a, b with
  | VStr s, VStr t => Ok (String.ltb s t)
  | _, _ =>
      match num_of a, num_of b with
      | Some x, Some y => Ok (x <? y)%Z
      | _, _ => Raise TypeError
      end
  end.

Definition py_le (a b : val) : result bool :=
  match a, b with
  | VStr s, VStr t => Ok (String.leb s t)
  | _, _ =>
      match num_of a, num_of b with
      | Some x, Some y => Ok (x <=? y)%Z
      | _, _ => Raise TypeError
      end
  end.

(** ** Records: Python dicts with string keys *)

Abbreviation record := (gmap string val).

(** [d.get(k)] and [d.get(k, dflt)]. *)
Definition dict_get (d : record) (k : string) : val := default VNone (d !! k).
Definition dict_get_or (d : record) (k : string) (dflt : val) : val :=
  default dflt (d !! k).

(** [d.setdefault(k, v)]: writes only when the key is absent. *)
Definition setdefault (k : string) (v : val) (d : record) : record :=
  match d !! k with
  | Some _ => d
  | None => <[k := v]> d
  end.

(** [d[k]], which raises [KeyError] on a missing key. *)
Definition getitem (d : record) (k : string) : result val :=
  match d !! k with
  | Some v => Ok v
  | None => Raise KeyError
  end.

(** [l[i] = x], which raises [IndexError] out of range. *)
Definition setitem (l : list record) (i : nat) (x : record) : result (list record) :=
  if bool_decide (i < length l) then Ok (<[i := x]> l) else Raise IndexError.

(** ** Effects of the store *)

Inductive prog (A : Type) : Type :=
| Ret (a : A)
| Throw (e : exn)
| Load (k : list record → prog A)
| Save (rows : list record) (k : prog A)
| Now (k : string → prog A).
Arguments Ret {A} a.
Arguments Throw {A} e.
Arguments Load {A} k.
Arguments Save {A} rows k.
Arguments Now {A} k.

Fixpoint bind {A B : Type} (p : prog A) (f : A → prog B) : prog B :=
  match p with
  | Ret a => f a
  | Throw e => Throw e
  | Load k => Load (λ rows, bind (k rows) f)
  | Save rows k => Save rows (bind k f)
  | Now k => Now (λ t, bind (k t) f)
  end.

#[global] Instance prog_ret : MRet prog := @Ret.
#[global] Instance prog_bind : MBind prog := λ A B f p, bind p f.

Definition lift {A : Type} (r : result A) : prog A :=
  match r with
  | Ok a => Ret a
  | Raise e => Throw e
  end.

(** The file holds [{"tasks": rows}]; [tick] counts the clock readings
    made so far. *)
Record world : Type := World { file : list record; tick : nat }.

(** What the process fixes from outside: the clock ([now n] is the
    [n]-th reading of [datetime.utcnow().isoformat()]) and Python's
    per-process [hash] of the pair [(canonical_text, timestamp)]. *)
Class Env : Type := { now : nat → string; py_hash : val → string → Z }.

Fixpoint run `{Env} {A : Type} (p : prog A) (w : world) : result A * world :=
  match p with
  | Ret a => (Ok a, w)
  | Throw e => (Raise e, w)
  | Load k => run (k (file w)) w
  | Save rows k => run k (World rows (tick w))
  | Now k => run (k (now (tick w))) (World (file w) (S (tick w)))
  end.

(** One effect of one caller. *)
Definition step `{Env} {A : Type} (p : prog A) (w : world) : prog A * world :=
  match p with
  | Ret a => (Ret a, w)
  | Throw e => (Throw e, w)
  | Load k => (k (file w), w)
  | Save rows k => (k, World rows (tick w))
  | Now k => (k (now (tick w)), World (file w) (S (tick w)))
  end.

(** A schedule names, effect by effect, the caller that moves next. *)
Fixpoint interleave `{Env} {A : Type} (sched : list nat) (callers : list (prog A))
    (w : world) : list (prog A) * world :=
  match sched with
  | [] => (callers, w)
  | i :: sched' =>
      match callers !! i with
      | Some p =>
          let '(p', w') := step p w in
          interleave sched' (<[i := p']> callers) w'
      | None => interleave sched' callers w
      end
  end.

Section LocalTaskStore.
Context `{Env}.

Definition _load : prog (list record) := Load Ret.
Definition _save (rows : list record) : prog unit := Save rows (Ret tt).
Definition _now_iso : prog string := Now Ret.

(** The decimal numeral that an f-string prints for a non-negative int. *)
Definition str_of_Z (z : Z) : string := NilZero.string_of_uint (N.to_uint (Z.to_N z)).

Definition _normalize_task_record (task : record) : prog record :=
  let rec := task in
  t_id ← _now_iso;
  let rec :=
    setdefault "id"
      (VStr ("task-" +:+
         str_of_Z (Z.abs (py_hash (dict_get_or task "canonical_text" (VStr "")) t_id))))
      rec in
  let rec :=
    setdefault "title"
      (py_or (dict_get task "canonical_text")
         (py_or (dict_get task "title") (VStr "Untitled Task")))
      rec in
  let rec := setdefault "status" (py_or (dict_get task "status") (VStr "todo")) rec in
  let rec := setdefault "priority" (py_or (dict_get task "priority") (VStr "medium")) rec in
  created ←
    (if truthy (dict_get task "created_at")
     then Ret (dict_get task "created_at")
     else t ← _now_iso; Ret (VStr t));
  let rec := setdefault "created_at" created rec in
  t_upd ← _now_iso;
  let rec := setdefault "updated_at" (VStr t_upd) rec in
  let rec := <["note_id" := dict_get task "note_id"]> rec in
  let rec := <["user_id" := dict_get task "user_id"]> rec in
  let rec := <["workspace_id" := dict_get task "workspace_id"]> rec in
  let rec := <["due_date" := dict_get task "due_date"]> rec in
  let rec := <["due_time" := dict_get task "due_time"]> rec in
  let rec := <["completed_at" := dict_get task "completed_at"]> rec in
  let rec := <["confidence" := dict_get task "confidence"]> rec in
  let rec := <["source_text" := dict_get task "source_text"]> rec in
  Ret rec.

(** [{t.get("id"): i for i, t in enumerate(existing) if t.get("id")}]:
    a later record with an equal id overwrites the earlier entry. *)
Fixpoint index_from (i : nat) (rows : list record) (idx : gmap hkey nat) : gmap hkey nat :=
  match rows with
  | [] => idx
  | t :: rows' =>
      index_from (S i) rows'
        (if truthy (dict_get t "id") then <[hkey_of (dict_get t "id") := i]> idx else idx)
  end.

Definition index_by_id (existing : list record) : gmap hkey nat :=
  index_from 0 existing ∅.

(** The [for raw in tasks] loop of [save_extracted_tasks]; [index_by_id]
    is the dict built before the loop and is not updated by it. *)
Fixpoint upsert_loop (index_by_id : gmap hkey nat) (tasks : list record)
    (existing : list record) (written : nat) : prog (list record * nat) :=
  match tasks with
  | [] => Ret (existing, written)
  | raw :: tasks' =>
      rec ← _normalize_task_record raw;
      t ← _now_iso;
      let rec := <["updated_at" := VStr t]> rec in
      tid ← lift (getitem rec "id");
      existing' ←
        match index_by_id !! hkey_of tid with
        | Some i => lift (setitem existing i rec)
        | None => Ret (existing ++ [rec])
        end;
      upsert_loop index_by_id tasks' existing' (S written)
  end.

Definition save_extracted_tasks (tasks : list record) : prog nat :=
  match tasks with
  | [] => Ret 0
  | _ =>
      existing ← _load;
      '(existing', written) ← upsert_loop (index_by_id existing) tasks existing 0;
      _save existing';;
      Ret written
  end.

(** [workspace_id is not None and t.get(key) != workspace_id]. *)
Definition filtered_out (key : string) (wanted : option string) (t : record) : bool :=
  match wanted with
  | Some x => negb (py_eq (dict_get t key) (VStr x))
  | None => false
  end.

(** [start_date <= due <= end_date], a chained comparison: the second
    test runs only when the first holds. *)
Definition in_range (start_date end_date : string) (due : val) : result bool :=
  b ← py_le (VStr start_date) due;
  if b : bool then py_le due (VStr end_date) else Ok false.

(** The [for t in rows] loop of [get_tasks_by_date_range]. *)
Fixpoint date_range_loop (start_date end_date : string)
    (workspace_id user_id : option string) (include_done : bool)
    (rows : list record) (results : list record) : result (list record) :=
  match rows with
  | [] => Ok results
  | t :: rows' =>
      let continue := date_range_loop start_date end_date workspace_id user_id
                        include_done rows' in
      let due := dict_get t "due_date" in
      if negb (truthy due) then continue results else
      b ← in_range start_date end_date due;
      if negb b then continue results else
      if filtered_out "workspace_id" workspace_id t then continue results else
      if filtered_out "user_id" user_id t then continue results else
      if negb include_done && py_eq (dict_get t "status") (VStr "done")
      then continue results
      else continue (results ++ [t])
  end.

(** The sort key [(x.get("due_date") or "9999-12-31",
    x.get("due_time") or "23:59")]. *)
Definition sort_key (x : record) : val * val :=
  (py_or (dict_get x "due_date") (VStr "9999-12-31"),
   py_or (dict_get x "due_time") (VStr "23:59")).

(** [a < b] on pairs: the first components that differ under [==]
    decide. *)
Definition tuple_lt (a b : val * val) : result bool :=
  if negb (py_eq a.1 b.1) then py_lt a.1 b.1
  else if negb (py_eq a.2 b.2) then py_lt a.2 b.2
  else Ok false.

(** [list.sort(key=...)] is stable and compares keys with [<] only; it
    is modelled as a stable insertion sort, which yields the same list
    whenever all keys are comparable. *)
Fixpoint insert_by_key (x : record) (l : list record) : result (list record) :=
  match l with
  | [] => Ok [x]
  | y :: l' =>
      b ← tuple_lt (sort_key y) (sort_key x);
      if b : bool then l'' ← insert_by_key x l'; Ok (y :: l'')
      else Ok (x :: y :: l')
  end.

Fixpoint sort_by_key (l : list record) : result (list record) :=
  match l with
  | [] => Ok []
  | x :: l' => s ← sort_by_key l'; insert_by_key x s
  end.

Definition get_tasks_by_date_range (start_date end_date : string)
    (workspace_id user_id : option string) (include_done : bool)
  : prog (list record) :=
  rows ← _load;
  results ← lift (date_range_loop start_date end_date workspace_id user_id
                    include_done rows []);
  lift (sort_by_key results).

(** The [for t in rows] loop of [get_tasks_by_note]. *)
Fixpoint by_note_loop (note_id : string) (workspace_id : option string)
    (rows : list record) (out : list record) : list record :=
  match rows with
  | [] => out
  | t :: rows' =>
      if negb (py_eq (dict_get t "note_id") (VStr note_id))
      then by_note_loop note_id workspace_id rows' out
      else if filtered_out "workspace_id" workspace_id t
      then by_note_loop note_id workspace_id rows' out
      else by_note_loop note_id workspace_id rows' (out ++ [t])
  end.

Definition get_tasks_by_note (note_id : string) (workspace_id : option string)
  : prog (list record) :=
  rows ← _load;
  lift (sort_by_key (by_note_loop note_id workspace_id rows [])).

(** [for i, t in enumerate(rows): if t.get("id") == task_id: ...]: the
    first record, in collection order, whose id equals [task_id]. *)
Fixpoint find_task (task_id : string) (i : nat) (rows : list record)
  : option (nat * record) :=
  match rows with
  | [] => None
  | t :: rows' =>
      if py_eq (dict_get t "id") (VStr task_id) then Some (i, t)
      else find_task task_id (S i) rows'
  end.

Definition allowed : gset string := {[ "todo"; "in_progress"; "done"; "archived" ]}.

Definition update_task_status (task_id status : string) : prog record :=
  if negb (bool_decide (status ∈ allowed)) then Throw ValueError else
  rows ← _load;
  match find_task task_id 0 rows with
  | Some (i, t) =>
      let t := <["status" := VStr status]> t in
      t_upd ← _now_iso;
      let t := <["updated_at" := VStr t_upd]> t in
      t ← (if String.eqb status "done"
           then t_done ← _now_iso; Ret (<["completed_at" := VStr t_done]> t)
           else Ret (<["completed_at" := VNone]> t));
      rows ← lift (setitem rows i t);
      _save rows;;
      Ret t
  | None => Throw KeyError
  end.

(** [due_time] defaults to [None]. *)
Definition opt_val (o : option string) : val :=
  match o with
  | Some s => VStr s
  | None => VNone
  end.

Definition reschedule_task (task_id due_date : string) (due_time : option string)
  : prog record :=
  rows ← _load;
  match find_task task_id 0 rows with
  | Some (i, t) =>
      let t := <["due_date" := VStr due_date]> t in
      let t := <["due_time" := opt_val due_time]> t in
      t_upd ← _now_iso;
      let t := <["updated_at" := VStr t_upd]> t in
      rows ← lift (setitem rows i t);
      _save rows;;
      Ret t
  | None => Throw KeyError
  end.

Definition delete_task (task_id : string) (soft_delete : bool) : prog unit :=
  rows ← _load;
  if soft_delete then
    match find_task task_id 0 rows with
    | Some (i, t) =>
        let t := <["status" := VStr "archived"]> t in
        t_upd ← _now_iso;
        let t := <["updated_at" := VStr t_upd]> t in
        rows ← lift (setitem rows i t);
        _save rows;;
        Ret tt
    | None => Throw KeyError
    end
  else
    let new_rows := filter (λ t, py_eq (dict_get t "id") (VStr task_id) = false) rows in
    if bool_decide (length new_rows = length rows) then Throw KeyError
    else _save new_rows;; Ret tt.

(** A call of one of the four mutating methods, its return value
    dropped. *)
Inductive call : Type :=
| CallUpsert (tasks : list record)
| CallSetStatus (task_id status : string)
| CallReschedule (task_id due_date : string) (due_time : option string)
| CallDelete (task_id : string) (soft_delete : bool).

Definition perform (c : call) : prog unit :=
  match c with
  | CallUpsert tasks => save_extracted_tasks tasks;; Ret tt
  | CallSetStatus task_id status => update_task_status task_id status;; Ret tt
  | CallReschedule task_id due_date due_time =>
      reschedule_task task_id due_date due_time;; Ret tt
  | CallDelete task_id soft_delete => delete_task task_id soft_delete
  end.

(** The file after a call (unchanged when the call raises before its
    [_save]). *)
Definition after (c : call) (w : world) : world := (run (perform c) w).2.

End LocalTaskStore.

(** ** LocalFSStorage: resolving a URI to a path

    Strings are the UTF-8 bytes of the Python [str]; the prefix ["fs://"]
    and the separator ["/"] are ASCII, so testing and slicing them by
    byte is testing and slicing by character. *)

(** [s.startswith(p)]. *)
Fixpoint startswith (p s : string) : bool :=
  match p, s with
  | EmptyString, _ => true
  | String a p', String b s' => Ascii.eqb a b && startswith p' s'
  | String _ _, EmptyString => false
  end.

(** [s.endswith("/")]. *)
Fixpoint endswith_sep (s : string) : bool :=
  match s with
  | EmptyString => false
  | String c EmptyString => Ascii.eqb c (Ascii.ascii_of_nat 47)
  | String _ s' => endswith_sep s'
  end.

(** [s[n:]]. *)
Fixpoint slice_from (n : nat) (s : string) : string :=
  match n, s with
  | 0, _ => s
  | S n', String _ s' => slice_from n' s'
  | S _, EmptyString => EmptyString
  end.

(** [os.path.join(a, b)] on POSIX: an absolute [b] replaces [a]; otherwise
    [b] is appended, after a separator unless [a] is empty or ends with
    one. *)
Definition os_path_join (a b : string) : string :=
  if startswith "/" b then b
  else if String.eqb a "" || endswith_sep a then a +:+ b
  else a +:+ "/" +:+ b.

Definition _resolve (base_path uri : string) : string :=
  let rel_path := if startswith "fs://" uri then slice_from 5 uri else uri in
  os_path_join base_path rel_path.

(** ** Vocabulary of the statements *)

(** The record is one that [t.get("id") == task_id] selects. *)
Definition has_id (task_id : string) (t : record) : Prop :=
  py_eq (dict_get t "id") (VStr task_id) = true.

#[global] Instance has_id_dec task_id t : Decision (has_id task_id t).
Proof. unfold has_id. apply _. Defined.

(** The first record, in collection order, that carries the id. *)
Definition first_match (task_id : string) (rows : list record) (i : nat) (t : record) : Prop :=
  rows !! i = Some t ∧ has_id task_id t ∧
  ∀ j t', j < i → rows !! j = Some t' → ¬ has_id task_id t'.

(** [completed_at] is non-null exactly when [status] is ['done']. *)
Definition completed_inv (r : record) : Prop :=
  dict_get r "completed_at" ≠ VNone ↔ dict_get r "status" = VStr "done".

(** [status] is one of the four enumerated values. *)
Definition status_ok (r : record) : Prop :=
  ∃ s, dict_get r "status" = VStr s ∧ s ∈ allowed.

(** A raw payload whose status, once normalized, is an enumerated value:
    the key is absent (normalization writes ['todo']) or holds one of the
    four strings. *)
Definition payload_status_ok (raw : record) : Prop :=
  raw !! "status" = None ∨ ∃ s, raw !! "status" = Some (VStr s) ∧ s ∈ allowed.

(** The calls that never write a status outside the enumeration. *)
Definition keeps_status (c : call) : Prop :=
  match c with
  | CallUpsert tasks => Forall payload_status_ok tasks
  | _ => True
  end.

(** A raw payload whose [completed_at] and [status], as normalization
    stores them, agree: [completed_at] is copied and [status] is the
    payload's, ['todo'] when the key is absent. *)
Definition payload_completion_ok (raw : record) : Prop :=
  dict_get raw "completed_at" ≠ VNone ↔
  default (VStr "todo") (raw !! "status") = VStr "done".

(** The calls that keep [completed_at] in step with [status] on the
    store [w]: an upsert of payloads that agree with themselves, a soft
    delete whose target has a null [completed_at], and every
    [update_task_status], [reschedule_task] and hard delete. *)
Definition keeps_completion (w : world) (c : call) : Prop :=
  match c with
  | CallUpsert tasks => Forall payload_completion_ok tasks
  | CallDelete task_id true =>
      ∀ i t, first_match task_id (file w) i t → dict_get t "completed_at" = VNone
  | CallSetStatus _ _ | CallReschedule _ _ _ | CallDelete _ false => True
  end.

Definition is_upsert (c : call) : Prop :=
  match c with
  | CallUpsert _ => True
  | _ => False
  end.

(** The record that [save_extracted_tasks] stores for a raw payload: its
    normalized form, stamped with a fresh [updated_at]. *)
Definition stored_from `{Env} (raw rec : record) : Prop :=
  ∃ w1 rec0 w2,
    run (_normalize_task_record raw) w1 = (Ok rec0, w2) ∧
    rec = <["updated_at" := VStr (now (tick w2))]> rec0.

(** The same, with the clock reading [k] at which normalization of the
    payload began. *)
Definition stored_at `{Env} (k : nat) (raw rec : record) : Prop :=
  ∃ w1 rec0 w2,
    tick w1 = k ∧
    run (_normalize_task_record raw) w1 = (Ok rec0, w2) ∧
    rec = <["updated_at" := VStr (now (tick w2))]> rec0.

(** Scheduling fields as the data model has them: null or a string. *)
Definition str_or_none (v : val) : bool :=
  match v with
  | VNone | VStr _ => true
  | _ => false
  end.

Definition sched_typed (r : record) : Prop :=
  str_or_none (dict_get r "due_date") = true ∧
  str_or_none (dict_get r "due_time") = true.

(** A null or empty field counts as the sentinel. *)
Definition str_or (v : val) (sentinel : string) : string :=
  match v with
  | VStr s => if String.eqb s "" then sentinel else s
  | _ => sentinel
  end.

Definition date_key (r : record) : string := str_or (dict_get r "due_date") "9999-12-31".
Definition time_key (r : record) : string := str_or (dict_get r "due_time") "23:59".

(** Ascending order on [(due_date, due_time)] with the sentinels in
    place of null fields. *)
Definition key_le (x y : record) : Prop :=
  String.ltb (date_key x) (date_key y) = true ∨
  (date_key x = date_key y ∧ String.leb (time_key x) (time_key y) = true).

(** An optional equality filter on a correlation key. *)
Definition field_is (key : string) (wanted : option string) (r : record) : Prop :=
  match wanted with
  | Some x => dict_get r key = VStr x
  | None => True
  end.

(** The records a date-range query selects: [due_date] is a non-empty
    string within the bounds, the optional filters hold, and a done
    record passes only when [include_done] is set. *)
Definition in_date_range (start_date end_date : string)
    (workspace_id user_id : option string) (include_done : bool) (r : record) : Prop :=
  match dict_get r "due_date" with
  | VStr d => d ≠ "" ∧ String.leb start_date d = true ∧ String.leb d end_date = true
  | _ => False
  end ∧
  field_is "workspace_id" workspace_id r ∧
  field_is "user_id" user_id r ∧
  (include_done = false → dict_get r "status" ≠ VStr "done").

#[global] Instance field_is_dec key wanted r : Decision (field_is key wanted r).
Proof. destruct wanted; simpl; apply _. Defined.

#[global] Instance in_date_range_dec s e ws u incl r :
  Decision (in_date_range s e ws u incl r).
Proof. unfold in_date_range. destruct (dict_get r "due_date"); apply _. Defined.

(** The records a by-note query selects. *)
Definition of_note (note_id : string) (workspace_id : option string) (r : record) : Prop :=
  dict_get r "note_id" = VStr note_id ∧ field_is "workspace_id" workspace_id r.

#[global] Instance of_note_dec note_id ws r : Decision (of_note note_id ws r).
Proof. unfold of_note. apply _. Defined.

(** The order the specification words: ascending by [(due_date,
    due_time)], a null [due_time] after every non-null one of the same
    date. *)
Definition time_le_null_last (a b : val) : bool :=
  match a, b with
  | _, VNone => true
  | VNone, _ => false
  | VStr s, VStr t => String.leb s t
  | _, _ => false
  end.

Definition null_last_le (x y : record) : Prop :=
  String.ltb (date_key x) (date_key y) = true ∨
  (date_key x = date_key y ∧
   time_le_null_last (dict_get x "due_time") (dict_get y "due_time") = true).

(** Running calls one after another, each from its load to its store. *)
Definition run_calls `{Env} (cs : list call) (w : world) : world :=
  foldl (λ w c, after c w) w cs.

(** The id keys held by a collection. *)
Definition id_keys (rows : list record) : list hkey :=
  (λ r, hkey_of (dict_get r "id")) <$> rows.

(** The index built before the upsert loop points at records that carry
    the indexed id. *)
Definition idx_ok (idx : gmap hkey nat) (existing : list record) : Prop :=
  ∀ k j, idx !! k = Some j →
    ∃ r, existing !! j = Some r ∧ hkey_of (dict_get r "id") = k.

(** The payload carries an [id] key. *)
Definition supplies_id (raw : record) : Prop := is_Some (raw !! "id").

(** The keys that [_normalize_task_record] overwrites with
    [task.get(key)], and the keys it fills in by [setdefault]. *)
Definition copied_keys : list string :=
  ["note_id"; "user_id"; "workspace_id"; "due_date"; "due_time";
   "completed_at"; "confidence"; "source_text"].

Definition defaulted_keys : list string :=
  ["id"; "title"; "status"; "priority"; "created_at"; "updated_at"].


(** The record has the sort key [k]. *)
Definition has_key (k : string * string) (r : record) : Prop :=
  (date_key r, time_key r) = k.

#[global] Instance has_key_dec k r : Decision (has_key k r).
Proof. unfold has_key. apply _. Defined.

(** The record carries, as a truthy id, the dict key [k]: it is one that
    [index_by_id] indexes under [k]. *)
Definition indexed_as (k : hkey) (r : record) : Prop :=
  truthy (dict_get r "id") = true ∧ hkey_of (dict_get r "id") = k.

#[global] Instance indexed_as_dec k r : Decision (indexed_as k r).
Proof. unfold indexed_as. apply _. Defined.

(** ** Sample data *)

Definition sample_env : Env :=
  {| now := λ n, "2024-06-01T12:00:0" +:+ str_of_Z (Z.of_nat n);
     py_hash := λ _ _, (-42)%Z |}.

Definition mk (fields : list (string * val)) : record := list_to_map fields.

Definition empty_world : world := World [] 0.

Definition task_a : record := mk [("id", VStr "a")].
Definition task_b : record := mk [("id", VStr "b")].
Definition task_a_done : record := mk [("id", VStr "a"); ("status", VStr "done")].
Definition task_a_bogus : record := mk [("id", VStr "a"); ("status", VStr "bogus")].

Definition row (id due_date : string) (due_time : val) : record :=
  mk [("id", VStr id); ("note_id", VStr "n1"); ("status", VStr "todo");
      ("due_date", VStr due_date); ("due_time", due_time);
      ("completed_at", VNone)].

Definition midnight_null : record := row "A" "2024-01-01" VNone.
Definition midnight_last : record := row "B" "2024-01-01" (VStr "23:59").


(** A store that holds the id ["A"] twice, around another record. *)
Definition dup_rows : list record :=
  [row "A" "2024-01-01" VNone; row "B" "2024-01-02" VNone;
   row "A" "2024-01-03" (VStr "10:30")].

(** Two callers, each about to upsert one record. *)
Definition two_upserts : list (prog unit) :=
  [perform (H := sample_env) (CallUpsert [task_a]);
   perform (H := sample_env) (CallUpsert [task_b])].

(** Both callers load before either stores. *)
Definition overlapping : list nat := [0; 1; 0; 0; 0; 0; 0; 1; 1; 1; 1; 1].

(** The normalized and the stored form of [task_a] on the empty store,
    and the stored form of that record upserted again. *)
Definition normalized_a : record :=
  mk [("id", VStr "a"); ("title", VStr "Untitled Task"); ("status", VStr "todo");
      ("priority", VStr "medium"); ("created_at", VStr "2024-06-01T12:00:01");
      ("updated_at", VStr "2024-06-01T12:00:02");
      ("note_id", VNone); ("user_id", VNone); ("workspace_id", VNone);
      ("due_date", VNone); ("due_time", VNone); ("completed_at", VNone);
      ("confidence", VNone); ("source_text", VNone)].

Definition stored_a : record := <["updated_at" := VStr "2024-06-01T12:00:03"]> normalized_a.

Definition restored_a : record := <["updated_at" := VStr "2024-06-01T12:00:05"]> stored_a.

(** A record with a numeric [due_date], and one with a null id. *)
Definition numeric_due : record := mk [("id", VStr "N"); ("due_date", VInt 20240101)].
Definition null_id : record := mk [("id", VNone); ("title", VStr "orphan")].

(** A completed record, a payload that names the stored id ["B"], and two
    payloads of one note and one day whose [due_time] is a number and a
    string. *)
Definition done_row : record :=
  mk [("id", VStr "D"); ("status", VStr "done");
      ("completed_at", VStr "2024-05-01T09:00:00")].




(** * Properties *)

Section Properties.
Context `{Env}.

(** ** Running effect trees *)

Lemma run_bind {A B : Type} (p : prog A) (f : A → prog B) (w : world) :
  run (p ≫= f) w =
  match run p w with
  | (Ok a, w') => run (f a) w'
  | (Raise e, w') => (Raise e, w')
  end.
Proof.
  revert w. induction p as [a|e|k IH|rows k IH|k IH]; intros w; simpl; auto.
Qed.

Lemma step_run {A : Type} (p : prog A) (w : world) :
  run (step p w).1 (step p w).2 = run p w.
Proof. by destruct p. Qed.

(** ** Dictionaries *)

Lemma dict_get_insert_eq (d : record) k v : dict_get (<[k := v]> d) k = v.
Proof. unfold dict_get. by rewrite lookup_insert_eq. Qed.

Lemma dict_get_insert_ne (d : record) k k' v :
  k ≠ k' → dict_get (<[k := v]> d) k' = dict_get d k'.
Proof. intros Hne. unfold dict_get. by rewrite lookup_insert_ne. Qed.

Lemma lookup_setdefault_eq (d : record) k v :
  setdefault k v d !! k = Some (default v (d !! k)).
Proof.
  unfold setdefault. destruct (d !! k) eqn:E; simpl; [done|].
  by rewrite lookup_insert_eq.
Qed.

Lemma lookup_setdefault_ne (d : record) k k' v :
  k ≠ k' → setdefault k v d !! k' = d !! k'.
Proof.
  intros Hne. unfold setdefault. destruct (d !! k); [done|].
  by rewrite lookup_insert_ne.
Qed.

Lemma py_eq_str (v : val) (s : string) : py_eq v (VStr s) = true ↔ v = VStr s.
Proof.
  unfold py_eq. rewrite bool_decide_eq_true. split; [|by intros ->].
  destruct v as [|[]| |]; simpl; congruence.
Qed.

Lemma has_id_iff task_id t : has_id task_id t ↔ dict_get t "id" = VStr task_id.
Proof. apply py_eq_str. Qed.

(** ** Locating a record by id *)

Lemma find_task_Some task_id k rows i t :
  find_task task_id k rows = Some (i, t) →
  ∃ j, i = k + j ∧ rows !! j = Some t ∧ has_id task_id t ∧
       ∀ j' t', j' < j → rows !! j' = Some t' → ¬ has_id task_id t'.
Proof.
  revert k. induction rows as [|r rows IH]; intros k; simpl; [done|].
  destruct (py_eq (dict_get r "id") (VStr task_id)) eqn:E.
  - intros [= <- <-]. exists 0. repeat split; [lia|done|]. intros j' t' Hlt. lia.
  - intros Hf. destruct (IH _ Hf) as (j & -> & Hj & Hid & Hbefore).
    exists (S j). repeat split; [lia|done..|].
    intros [|j'] t' Hlt; simpl.
    + intros [= <-]. unfold has_id. congruence.
    + intros Hl. apply (Hbefore j' t'); [lia|done].
Qed.

Lemma find_task_None task_id k rows :
  find_task task_id k rows = None ↔ Forall (λ t, ¬ has_id task_id t) rows.
Proof.
  revert k. induction rows as [|r rows IH]; intros k; simpl.
  - split; [constructor|done].
  - destruct (py_eq (dict_get r "id") (VStr task_id)) eqn:E.
    + split; [done|]. intros Hall. inversion Hall; subst. unfold has_id in *. congruence.
    + rewrite IH. split.
      * intros Hall. constructor; [unfold has_id; congruence | done].
      * intros Hall. by inversion Hall.
Qed.

Lemma find_task_first task_id rows i t :
  find_task task_id 0 rows = Some (i, t) ↔ first_match task_id rows i t.
Proof.
  split.
  - intros Hf. destruct (find_task_Some _ _ _ _ _ Hf) as (j & -> & ? & ? & ?).
    by repeat split.
  - intros (Hl & Hid & Hbefore).
    destruct (find_task task_id 0 rows) as [[i' t']|] eqn:Hf.
    + destruct (find_task_Some _ _ _ _ _ Hf) as (j & -> & Hj & Hid' & Hbefore').
      simpl. destruct (Nat.lt_trichotomy j i) as [Hlt|[->|Hgt]].
      * by destruct (Hbefore _ _ Hlt Hj).
      * congruence.
      * by destruct (Hbefore' _ _ Hgt Hl).
    + apply find_task_None in Hf. rewrite Forall_forall in Hf.
      destruct (Hf t); [|done]. by eapply list_elem_of_lookup_2.
Qed.

Lemma first_match_exists task_id rows :
  Exists (has_id task_id) rows → ∃ i t, first_match task_id rows i t.
Proof.
  intros Hex. destruct (find_task task_id 0 rows) as [[i t]|] eqn:Hf.
  - exists i, t. by apply find_task_first.
  - apply find_task_None in Hf. apply Exists_exists in Hex as (t & Hin & Hid).
    rewrite Forall_forall in Hf. by destruct (Hf t Hin).
Qed.

Lemma setitem_lookup (rows : list record) i t x :
  rows !! i = Some t → setitem rows i x = Ok (<[i := x]> rows).
Proof.
  intros Hl. unfold setitem. apply lookup_lt_Some in Hl.
  by rewrite bool_decide_eq_true_2.
Qed.

(** ** What each single-record method does *)

Lemma allowed_iff (s : string) :
  s ∈ allowed ↔ s = "todo" ∨ s = "in_progress" ∨ s = "done" ∨ s = "archived".
Proof. unfold allowed. rewrite !elem_of_union, !elem_of_singleton. tauto. Qed.

Lemma run_update_task_status_invalid task_id status w :
  status ∉ allowed →
  run (update_task_status task_id status) w = (Raise ValueError, w).
Proof.
  intros Hs. unfold update_task_status. by rewrite bool_decide_eq_false_2.
Qed.

Lemma run_update_task_status_missing task_id status w :
  status ∈ allowed →
  Forall (λ t, ¬ has_id task_id t) (file w) →
  run (update_task_status task_id status) w = (Raise KeyError, w).
Proof.
  intros Hs Hnone. unfold update_task_status. rewrite bool_decide_eq_true_2 by done.
  simpl. apply (find_task_None task_id 0) in Hnone. by rewrite Hnone.
Qed.

Lemma run_update_task_status_found task_id status w i t :
  status ∈ allowed →
  first_match task_id (file w) i t →
  let t1 := <["updated_at" := VStr (now (tick w))]> (<["status" := VStr status]> t) in
  let t' := if String.eqb status "done"
            then <["completed_at" := VStr (now (S (tick w)))]> t1
            else <["completed_at" := VNone]> t1 in
  let n := if String.eqb status "done" then 2 else 1 in
  run (update_task_status task_id status) w =
    (Ok t', World (<[i := t']> (file w)) (n + tick w)).
Proof.
  intros Hs Hfm. pose proof Hfm as (Hl & _). apply find_task_first in Hfm.
  unfold update_task_status. rewrite bool_decide_eq_true_2 by done.
  simpl. rewrite Hfm. simpl.
  destruct (String.eqb status "done"); simpl;
    by rewrite (setitem_lookup _ _ t).
Qed.

Lemma run_reschedule_task_missing task_id due_date due_time w :
  Forall (λ t, ¬ has_id task_id t) (file w) →
  run (reschedule_task task_id due_date due_time) w = (Raise KeyError, w).
Proof.
  intros Hnone. unfold reschedule_task. simpl.
  apply (find_task_None task_id 0) in Hnone. by rewrite Hnone.
Qed.

Lemma run_reschedule_task_found task_id due_date due_time w i t :
  first_match task_id (file w) i t →
  let t' := <["updated_at" := VStr (now (tick w))]>
              (<["due_time" := opt_val due_time]> (<["due_date" := VStr due_date]> t)) in
  run (reschedule_task task_id due_date due_time) w =
    (Ok t', World (<[i := t']> (file w)) (S (tick w))).
Proof.
  intros Hfm. pose proof Hfm as (Hl & _). apply find_task_first in Hfm.
  unfold reschedule_task. simpl. rewrite Hfm. simpl.
  by rewrite (setitem_lookup _ _ t).
Qed.

Lemma run_delete_task_soft_missing task_id w :
  Forall (λ t, ¬ has_id task_id t) (file w) →
  run (delete_task task_id true) w = (Raise KeyError, w).
Proof.
  intros Hnone. unfold delete_task. simpl.
  apply (find_task_None task_id 0) in Hnone. by rewrite Hnone.
Qed.

Lemma run_delete_task_soft_found task_id w i t :
  first_match task_id (file w) i t →
  let t' := <["updated_at" := VStr (now (tick w))]> (<["status" := VStr "archived"]> t) in
  run (delete_task task_id true) w =
    (Ok tt, World (<[i := t']> (file w)) (S (tick w))).
Proof.
  intros Hfm. pose proof Hfm as (Hl & _). apply find_task_first in Hfm.
  unfold delete_task. simpl. rewrite Hfm. simpl.
  by rewrite (setitem_lookup _ _ t).
Qed.

(** The rows a hard delete keeps. *)
Lemma filter_keeps_all (task_id : string) (rows : list record) :
  length (filter (λ t, py_eq (dict_get t "id") (VStr task_id) = false) rows) = length rows ↔
  Forall (λ t, ¬ has_id task_id t) rows.
Proof.
  induction rows as [|r rows IH]; simpl.
  - split; [constructor|done].
  - rewrite filter_cons. unfold has_id at 1.
    pose proof (length_filter (λ t, py_eq (dict_get t "id") (VStr task_id) = false) rows) as Hle.
    destruct (decide (py_eq (dict_get r "id") (VStr task_id) = false)) as [E|E]; simpl.
    + split.
      * intros [= Hlen]. constructor; [congruence|by apply IH].
      * intros Hall. inversion Hall; subst. f_equal. by apply IH.
    + split; [lia|]. intros Hall. inversion Hall as [|?? Hn]; subst.
      destruct E. by destruct (py_eq _ _).
Qed.

Lemma run_delete_task_hard_missing task_id w :
  Forall (λ t, ¬ has_id task_id t) (file w) →
  run (delete_task task_id false) w = (Raise KeyError, w).
Proof.
  intros Hnone. unfold delete_task. simpl.
  apply filter_keeps_all in Hnone. by rewrite bool_decide_eq_true_2.
Qed.

Lemma run_delete_task_hard_found task_id w :
  Exists (has_id task_id) (file w) →
  run (delete_task task_id false) w =
    (Ok tt, World (filter (λ t, py_eq (dict_get t "id") (VStr task_id) = false) (file w))
              (tick w)).
Proof.
  intros Hex. unfold delete_task. simpl.
  rewrite bool_decide_eq_false_2; [done|].
  rewrite filter_keeps_all. intros Hall. apply Exists_exists in Hex as (t & Hin & Hid).
  rewrite Forall_forall in Hall. by destruct (Hall t Hin).
Qed.

Lemma no_match_or_match task_id (rows : list record) :
  Forall (λ t, ¬ has_id task_id t) rows ∨ Exists (has_id task_id) rows.
Proof.
  destruct (decide (Exists (has_id task_id) rows)) as [?|Hn]; [by right|left].
  by apply not_Exists_Forall in Hn; [|apply _].
Qed.

Lemma no_match_not_match task_id (rows : list record) :
  Forall (λ t, ¬ has_id task_id t) rows → Exists (has_id task_id) rows → False.
Proof.
  rewrite Forall_forall, Exists_exists. intros Hall (t & Hin & Hid). by apply (Hall t).
Qed.

(** ** Errors *)

Lemma run_perform_value {A : Type} (p : prog A) (w : world) :
  run (p ;; Ret tt) w =
  match run p w with
  | (Ok _, w') => (Ok tt, w')
  | (Raise e, w') => (Raise e, w')
  end.
Proof. rewrite run_bind. by destruct (run p w) as [[?|?] ?]. Qed.

(** C6 (amended). [update_task_status] raises [ValueError] exactly when
    the requested status is outside the four enumerated values, and
    [KeyError] exactly when the status is one of the four and no record
    carries the id; [reschedule_task] and [delete_task] (soft or hard)
    raise [KeyError] exactly when no record carries the id; whenever one
    of the three raises, file and clock are as before the call. *)
Theorem error_cases (w : world) (task_id : string) :
  (∀ status,
     (run (update_task_status task_id status) w).1 = Raise ValueError ↔
     status ∉ allowed) ∧
  (∀ status,
     (run (update_task_status task_id status) w).1 = Raise KeyError ↔
     status ∈ allowed ∧ Forall (λ t, ¬ has_id task_id t) (file w)) ∧
  (∀ due_date due_time,
     (run (reschedule_task task_id due_date due_time) w).1 = Raise KeyError ↔
     Forall (λ t, ¬ has_id task_id t) (file w)) ∧
  (∀ soft_delete,
     (run (delete_task task_id soft_delete) w).1 = Raise KeyError ↔
     Forall (λ t, ¬ has_id task_id t) (file w)) ∧
  (∀ c e, ¬ is_upsert c → (run (perform c) w).1 = Raise e → (run (perform c) w).2 = w).
Proof.
  split; [|split; [|split; [|split]]].
  - intros status. destruct (decide (status ∈ allowed)) as [Hs|Hs].
    + split; [|done]. destruct (no_match_or_match task_id (file w)) as [Hn|Hex].
      * by rewrite run_update_task_status_missing.
      * destruct (first_match_exists _ _ Hex) as (i & t & Hfm).
        by rewrite (run_update_task_status_found _ _ _ i t).
    + by rewrite run_update_task_status_invalid.
  - intros status. destruct (decide (status ∈ allowed)) as [Hs|Hs].
    + destruct (no_match_or_match task_id (file w)) as [Hn|Hex].
      * by rewrite run_update_task_status_missing.
      * destruct (first_match_exists _ _ Hex) as (i & t & Hfm).
        rewrite (run_update_task_status_found _ _ _ i t) by done. simpl.
        split; [done|]. intros [_ Hn]. by destruct (no_match_not_match _ _ Hn Hex).
    + rewrite run_update_task_status_invalid by done. simpl. split; [done|tauto].
  - intros due_date due_time.
    destruct (no_match_or_match task_id (file w)) as [Hn|Hex].
    + by rewrite run_reschedule_task_missing.
    + destruct (first_match_exists _ _ Hex) as (i & t & Hfm).
      rewrite (run_reschedule_task_found _ _ _ _ i t) by done. simpl.
      split; [done|]. intros Hn. by destruct (no_match_not_match _ _ Hn Hex).
  - intros soft_delete.
    destruct (no_match_or_match task_id (file w)) as [Hn|Hex].
    + destruct soft_delete;
        [by rewrite run_delete_task_soft_missing|by rewrite run_delete_task_hard_missing].
    + split; [|intros Hn; by destruct (no_match_not_match _ _ Hn Hex)].
      destruct soft_delete.
      * destruct (first_match_exists _ _ Hex) as (i & t & Hfm).
        by rewrite (run_delete_task_soft_found _ _ i t).
      * by rewrite run_delete_task_hard_found.
  - intros [tasks|tid status|tid due_date due_time|tid soft_delete] e Hc; unfold perform;
      [by destruct Hc|..]; clear Hc.
    + rewrite run_perform_value.
      destruct (decide (status ∈ allowed)) as [Hs|Hs];
        [|by rewrite run_update_task_status_invalid].
      destruct (no_match_or_match tid (file w)) as [Hn|Hex];
        [by rewrite run_update_task_status_missing|].
      destruct (first_match_exists _ _ Hex) as (i & t & Hfm).
      by rewrite (run_update_task_status_found _ _ _ i t).
    + rewrite run_perform_value.
      destruct (no_match_or_match tid (file w)) as [Hn|Hex];
        [by rewrite run_reschedule_task_missing|].
      destruct (first_match_exists _ _ Hex) as (i & t & Hfm).
      by rewrite (run_reschedule_task_found _ _ _ _ i t).
    + destruct (no_match_or_match tid (file w)) as [Hn|Hex].
      * destruct soft_delete;
          [by rewrite run_delete_task_soft_missing|by rewrite run_delete_task_hard_missing].
      * destruct soft_delete.
        -- destruct (first_match_exists _ _ Hex) as (i & t & Hfm).
           by rewrite (run_delete_task_soft_found _ _ i t).
        -- by rewrite run_delete_task_hard_found.
Qed.

(** ** Rescheduling *)

(** C8. For an id that some record carries, [reschedule_task] returns
    the first such record with [due_date] and [due_time] overwritten
    ([due_time] null when omitted) and [updated_at] refreshed; every
    other key of that record, [status] and [completed_at] among them,
    and every other position of the collection are as before. *)
Theorem reschedule_task_frame (w : world) (task_id due_date : string)
    (due_time : option string) :
  Exists (has_id task_id) (file w) →
  ∃ i t t' w',
    first_match task_id (file w) i t ∧
    run (reschedule_task task_id due_date due_time) w = (Ok t', w') ∧
    file w' !! i = Some t' ∧
    dict_get t' "due_date" = VStr due_date ∧
    dict_get t' "due_time" =
      match due_time with Some s => VStr s | None => VNone end ∧
    dict_get t' "updated_at" = VStr (now (tick w)) ∧
    t' !! "status" = t !! "status" ∧
    t' !! "completed_at" = t !! "completed_at" ∧
    (∀ k, k ≠ "due_date" → k ≠ "due_time" → k ≠ "updated_at" → t' !! k = t !! k) ∧
    length (file w') = length (file w) ∧
    (∀ j, j ≠ i → file w' !! j = file w !! j).
Proof.
  intros Hex. destruct (first_match_exists _ _ Hex) as (i & t & Hfm).
  pose proof Hfm as (Hl & _).
  eexists i, t, _, _. split; [done|].
  split; [by apply run_reschedule_task_found|]. simpl.
  split; [apply list_lookup_insert_eq; by eapply lookup_lt_Some|].
  split; [rewrite dict_get_insert_ne, dict_get_insert_ne, dict_get_insert_eq; done|].
  split; [rewrite dict_get_insert_ne, dict_get_insert_eq; [by destruct due_time|done]|].
  split; [by rewrite dict_get_insert_eq|].
  split; [by rewrite !lookup_insert_ne|].
  split; [by rewrite !lookup_insert_ne|].
  split; [intros k ???; by rewrite !lookup_insert_ne|].
  split; [apply length_insert|].
  intros j Hne. by apply list_lookup_insert_ne.
Qed.

(** ** Sorting by [(due_date, due_time)] *)

Lemma string_compare_refl (s : string) : String.compare s s = Eq.
Proof.
  pose proof (String.compare_antisym s s) as Ha.
  destruct (String.compare s s); simpl in Ha; congruence.
Qed.

Lemma string_ltb_irrefl (s : string) : String.ltb s s = false.
Proof. unfold String.ltb. by rewrite string_compare_refl. Qed.

Lemma string_ltb_leb (s t : string) : String.ltb s t = true → String.leb s t = true.
Proof. unfold String.ltb, String.leb. by destruct (String.compare s t). Qed.

Lemma string_nlt_le (s t : string) : String.ltb s t = false → String.leb t s = true.
Proof.
  unfold String.ltb, String.leb. rewrite (String.compare_antisym s t).
  by destruct (String.compare t s).
Qed.

Lemma string_nlt_neq_lt (s t : string) :
  String.ltb s t = false → s ≠ t → String.ltb t s = true.
Proof.
  unfold String.ltb. rewrite (String.compare_antisym s t). intros Hlt Hne.
  destruct (String.compare t s) eqn:E; simpl in *; try done.
  apply String.compare_eq_iff in E. by destruct Hne.
Qed.

Lemma str_or_truthy (v : val) (sentinel : string) :
  str_or_none v = true → py_or v (VStr sentinel) = VStr (str_or v sentinel).
Proof.
  destruct v as [| | |s]; try done. intros _. unfold py_or. simpl.
  by destruct (String.eqb s "").
Qed.

Lemma sort_key_typed (r : record) :
  sched_typed r → sort_key r = (VStr (date_key r), VStr (time_key r)).
Proof.
  intros [Hd Ht]. unfold sort_key, date_key, time_key.
  by rewrite !str_or_truthy.
Qed.

Lemma tuple_lt_str (a b c d : string) :
  tuple_lt (VStr a, VStr b) (VStr c, VStr d) =
  Ok (if decide (a = c) then String.ltb b d else String.ltb a c).
Proof.
  unfold tuple_lt, py_eq. simpl.
  destruct (decide (a = c)) as [->|Hac].
  - rewrite bool_decide_eq_true_2 by done. simpl.
    destruct (decide (b = d)) as [->|Hbd].
    + rewrite bool_decide_eq_true_2 by done. simpl. by rewrite string_ltb_irrefl.
    + rewrite bool_decide_eq_false_2 by congruence. done.
  - rewrite bool_decide_eq_false_2 by congruence. done.
Qed.

Lemma key_lt_le (x y : record) :
  (if decide (date_key y = date_key x)
   then String.ltb (time_key y) (time_key x)
   else String.ltb (date_key y) (date_key x)) = true →
  key_le y x.
Proof.
  unfold key_le. destruct (decide _) as [E|E]; intros Hlt.
  - right. split; [done|]. by apply string_ltb_leb.
  - by left.
Qed.

Lemma key_nlt_le (x y : record) :
  (if decide (date_key y = date_key x)
   then String.ltb (time_key y) (time_key x)
   else String.ltb (date_key y) (date_key x)) = false →
  key_le x y.
Proof.
  unfold key_le. destruct (decide _) as [E|E]; intros Hlt.
  - right. split; [done|]. by apply string_nlt_le.
  - left. by apply string_nlt_neq_lt.
Qed.

Lemma insert_by_key_typed (x : record) (l : list record) :
  sched_typed x → Forall sched_typed l → Sorted key_le l →
  ∃ l', insert_by_key x l = Ok l' ∧ l' ≡ₚ x :: l ∧ Sorted key_le l' ∧
        ∀ z, key_le z x → HdRel key_le z l → HdRel key_le z l'.
Proof.
  intros Hx. induction l as [|y l IH]; intros Hall Hsorted; simpl.
  - exists [x]. repeat split; [done|by repeat constructor|]. by constructor.
  - inversion Hall as [|?? Hy Hl]; subst.
    rewrite (sort_key_typed y), (sort_key_typed x), tuple_lt_str by done.
    simpl. destruct (if decide _ then _ else _) eqn:Hlt.
    + apply Sorted_inv in Hsorted as [Hsorted Hhd].
      destruct (IH Hl Hsorted) as (l' & -> & Hperm & Hs' & Hhd').
      simpl. exists (y :: l'). repeat split.
      * rewrite Hperm. apply Permutation_swap.
      * constructor; [done|]. apply Hhd'; [|done]. by apply key_lt_le.
      * intros z _ Hz. constructor. by inversion Hz.
    + exists (x :: y :: l). repeat split; [done| |].
      * constructor; [done|]. constructor. by apply key_nlt_le.
      * intros z Hz _. by constructor.
Qed.

Lemma sort_by_key_typed (l : list record) :
  Forall sched_typed l →
  ∃ l', sort_by_key l = Ok l' ∧ l' ≡ₚ l ∧ Sorted key_le l'.
Proof.
  induction l as [|x l IH]; intros Hall; simpl.
  - exists []. by repeat split; [|constructor].
  - inversion Hall as [|?? Hx Hl]; subst.
    destruct (IH Hl) as (s & -> & Hperm & Hsorted). simpl.
    destruct (insert_by_key_typed x s) as (l' & Hins & Hperm' & Hsorted' & _);
      [done|by rewrite Hperm|done|].
    exists l'. repeat split; [done| |done]. by rewrite Hperm', Hperm.
Qed.

(** Whatever the field types, a sort that returns has only rearranged
    its input. *)
Lemma insert_by_key_perm (x : record) (l l' : list record) :
  insert_by_key x l = Ok l' → l' ≡ₚ x :: l.
Proof.
  revert l'. induction l as [|y l IH]; intros l'; simpl.
  - by intros [= <-].
  - destruct (tuple_lt _ _) as [[]|]; simpl; [|by intros [= <-]|done].
    destruct (insert_by_key x l) as [l''|]; simpl; [|done].
    intros [= <-]. rewrite (IH l'') by done. apply Permutation_swap.
Qed.

Lemma sort_by_key_perm (l l' : list record) : sort_by_key l = Ok l' → l' ≡ₚ l.
Proof.
  revert l'. induction l as [|x l IH]; intros l'; simpl.
  - by intros [= <-].
  - destruct (sort_by_key l) as [s|]; simpl; [|done].
    intros Hins. apply insert_by_key_perm in Hins. by rewrite Hins, (IH s).
Qed.

(** ** Queries *)

Lemma Forall_filter_keep {A : Type} (P Q : A → Prop) `{!∀ x, Decision (P x)}
    (l : list A) :
  Forall Q l → Forall Q (filter P l).
Proof.
  rewrite !Forall_forall. intros HQ x [_ Hx]%list_elem_of_filter. by apply HQ.
Qed.

Lemma filtered_out_false key wanted (t : record) :
  filtered_out key wanted t = false ↔ field_is key wanted t.
Proof.
  destruct wanted as [x|]; simpl; [|done].
  rewrite negb_false_iff. apply py_eq_str.
Qed.

Lemma py_eq_done (v : val) : py_eq v (VStr "done") = false ↔ v ≠ VStr "done".
Proof. rewrite <- py_eq_str. by destruct (py_eq v (VStr "done")). Qed.

Lemma date_range_loop_typed start_date end_date workspace_id user_id include_done
    (rows results : list record) :
  Forall sched_typed rows →
  date_range_loop start_date end_date workspace_id user_id include_done rows results =
  Ok (results ++
      filter (in_date_range start_date end_date workspace_id user_id include_done) rows).
Proof.
  revert results. induction rows as [|t rows IH]; intros results Hall; simpl.
  - by rewrite app_nil_r.
  - inversion Hall as [|?? [Hd _] Hrows]; subst. rewrite filter_cons.
    destruct (decide (in_date_range _ _ _ _ _ t)) as [Hsel|Hsel];
      unfold in_date_range in Hsel.
    + destruct (dict_get t "due_date") as [| | |d] eqn:Hdue; try by destruct Hsel.
      destruct Hsel as ((Hne & Hlo & Hhi) & Hws & Hu & Hdone). simpl.
      apply String.eqb_neq in Hne. rewrite Hne. simpl.
      unfold in_range. simpl. rewrite Hlo. simpl. rewrite Hhi. simpl.
      apply filtered_out_false in Hws, Hu. rewrite Hws, Hu.
      assert (negb include_done && py_eq (dict_get t "status") (VStr "done") = false)
        as ->.
      { destruct include_done; [done|]. simpl. by apply py_eq_done, Hdone. }
      rewrite IH by done. by rewrite <- app_assoc.
    + assert (∀ r, (if negb (truthy (dict_get t "due_date")) then r else
                  b ← in_range start_date end_date (dict_get t "due_date");
                  if negb b then r else
                  if filtered_out "workspace_id" workspace_id t then r else
                  if filtered_out "user_id" user_id t then r else
                  if negb include_done && py_eq (dict_get t "status") (VStr "done")
                  then r
                  else date_range_loop start_date end_date workspace_id user_id
                         include_done rows (results ++ [t])) = r) as ->; [|by apply IH].
      intros r. destruct (dict_get t "due_date") as [| | |d] eqn:Hdue; try done.
      simpl. destruct (String.eqb d "") eqn:Hne; [done|]. simpl.
      unfold in_range. simpl.
      destruct (String.leb start_date d) eqn:Hlo; [|done]. simpl.
      destruct (String.leb d end_date) eqn:Hhi; [|done]. simpl.
      destruct (filtered_out "workspace_id" workspace_id t) eqn:Hws; [done|].
      destruct (filtered_out "user_id" user_id t) eqn:Hu; [done|].
      destruct include_done; simpl.
      * destruct Hsel. apply String.eqb_neq in Hne.
        by rewrite <- !filtered_out_false.
      * destruct (py_eq (dict_get t "status") (VStr "done")) eqn:Hst; [done|].
        destruct Hsel. apply String.eqb_neq in Hne. apply py_eq_done in Hst.
        by rewrite <- !filtered_out_false.
Qed.

Lemma date_range_loop_subset start_date end_date workspace_id user_id include_done
    (rows results l : list record) :
  date_range_loop start_date end_date workspace_id user_id include_done rows results = Ok l →
  l ⊆ results ++ rows.
Proof.
  revert results. induction rows as [|t rows IH]; intros results; simpl.
  - intros [= <-]. by rewrite app_nil_r.
  - assert (∀ res, res ⊆ results ++ [t] →
              date_range_loop start_date end_date workspace_id user_id include_done
                rows res = Ok l → l ⊆ results ++ t :: rows) as Hstep.
    { intros res Hres Hl x Hx. apply IH in Hl. apply Hl in Hx.
      rewrite elem_of_app, elem_of_cons.
      apply elem_of_app in Hx as [Hx|Hx]; [|tauto].
      apply Hres, elem_of_app in Hx as [Hx|Hx%list_elem_of_singleton]; tauto. }
    assert (results ⊆ results ++ [t]) as Hskip.
    { intros x Hx. apply elem_of_app. by left. }
    destruct (negb (truthy _)); [by apply Hstep|].
    destruct (in_range _ _ _) as [b|]; simpl; [|done].
    repeat (match goal with |- context [if ?c then _ else _] => destruct c end;
            [by apply Hstep|]).
    by apply Hstep.
Qed.

Lemma by_note_loop_filter note_id workspace_id (rows out : list record) :
  by_note_loop note_id workspace_id rows out =
  out ++ filter (of_note note_id workspace_id) rows.
Proof.
  revert out. induction rows as [|t rows IH]; intros out; simpl.
  - by rewrite app_nil_r.
  - rewrite filter_cons. unfold of_note at 2.
    destruct (py_eq (dict_get t "note_id") (VStr note_id)) eqn:Hn; simpl.
    + apply py_eq_str in Hn.
      destruct (filtered_out "workspace_id" workspace_id t) eqn:Hws.
      * rewrite decide_False; [apply IH|]. rewrite <- filtered_out_false. intros [_ ?].
        congruence.
      * rewrite decide_True by (by rewrite <- filtered_out_false).
        rewrite IH. by rewrite <- app_assoc.
    + rewrite decide_False; [apply IH|]. rewrite <- py_eq_str. intros [? _]. congruence.
Qed.

(** C5 (amended). On a store whose [due_date] and [due_time] fields are
    null or strings, [get_tasks_by_date_range] returns, leaving the file
    as it was, exactly the records whose [due_date] is a non-empty string
    lexicographically within [[start_date, end_date]], that equal the
    given [workspace_id] and [user_id] when those are provided, and that
    are not ['done'] when [include_done] is false; the result is sorted
    ascending by [(due_date, due_time)] with a null or empty [due_time]
    ordered as the sentinel ["23:59"]. *)
Theorem get_tasks_by_date_range_sorted_selection start_date end_date workspace_id
    user_id include_done (w : world) :
  Forall sched_typed (file w) →
  ∃ l,
    run (get_tasks_by_date_range start_date end_date workspace_id user_id include_done) w
      = (Ok l, w) ∧
    l ≡ₚ filter (in_date_range start_date end_date workspace_id user_id include_done)
           (file w) ∧
    Sorted key_le l.
Proof.
  intros Hall. unfold get_tasks_by_date_range. simpl.
  rewrite date_range_loop_typed by done. simpl.
  destruct (sort_by_key_typed
              (filter (in_date_range start_date end_date workspace_id user_id include_done)
                 (file w))) as (l & Hsort & Hperm & Hsorted).
  { by apply Forall_filter_keep. }
  rewrite Hsort. simpl. by exists l.
Qed.


(** A query that returns has read the file and left it as it was, and
    returns records of the file only. *)
Lemma run_get_tasks_by_date_range_subset start_date end_date workspace_id user_id
    include_done (w w' : world) (l : list record) :
  run (get_tasks_by_date_range start_date end_date workspace_id user_id include_done) w
    = (Ok l, w') →
  w' = w ∧ l ⊆ file w.
Proof.
  unfold get_tasks_by_date_range. simpl.
  destruct (date_range_loop _ _ _ _ _ _ _) as [res|] eqn:Hloop; simpl; [|done].
  destruct (sort_by_key res) as [s|] eqn:Hsort; simpl; [|done].
  intros [= <- <-]. split; [done|].
  apply sort_by_key_perm in Hsort. apply date_range_loop_subset in Hloop.
  rewrite Hsort. by rewrite Hloop.
Qed.

Lemma run_get_tasks_by_note_subset note_id workspace_id (w w' : world) (l : list record) :
  run (get_tasks_by_note note_id workspace_id) w = (Ok l, w') →
  w' = w ∧ l ⊆ file w.
Proof.
  unfold get_tasks_by_note. simpl. rewrite by_note_loop_filter. simpl.
  destruct (sort_by_key _) as [s|] eqn:Hsort; simpl; [|done].
  intros [= <- <-]. split; [done|].
  apply sort_by_key_perm in Hsort. rewrite Hsort.
  intros x Hx. by apply list_elem_of_filter in Hx as [_ ?].
Qed.

(** ** Deleting *)

Lemma Forall_insert_keep {A : Type} (P : A → Prop) (l : list A) (i : nat) (x : A) :
  Forall P l → P x → Forall P (<[i := x]> l).
Proof. intros Hl Hx. by apply Forall_insert. Qed.


(** ** Collections that hold an id more than once *)

(** C10. When a later record repeats the id of the first match, a hard
    delete removes every record with that id and keeps the others in
    order, whereas [update_task_status], [reschedule_task] and a soft
    delete rewrite the first match only: every other position, the later
    duplicate included, is as before. *)
Theorem duplicate_ids_first_match_only (w : world) (task_id : string)
    (i j : nat) (ti tj : record) :
  first_match task_id (file w) i ti →
  i < j → file w !! j = Some tj → has_id task_id tj →
  (∃ w',
      run (delete_task task_id false) w = (Ok tt, w') ∧
      file w' = filter (λ t, ¬ has_id task_id t) (file w) ∧
      (ti ∉ file w') ∧ (tj ∉ file w')) ∧
  (∀ status, status ∈ allowed →
      ∃ t' w',
        run (update_task_status task_id status) w = (Ok t', w') ∧
        file w' !! i = Some t' ∧ dict_get t' "status" = VStr status ∧
        file w' !! j = Some tj ∧ ∀ k, k ≠ i → file w' !! k = file w !! k) ∧
  (∀ due_date due_time,
      ∃ t' w',
        run (reschedule_task task_id due_date due_time) w = (Ok t', w') ∧
        file w' !! i = Some t' ∧ dict_get t' "due_date" = VStr due_date ∧
        file w' !! j = Some tj ∧ ∀ k, k ≠ i → file w' !! k = file w !! k) ∧
  (∃ t' w',
      run (delete_task task_id true) w = (Ok tt, w') ∧
      file w' !! i = Some t' ∧ dict_get t' "status" = VStr "archived" ∧
      file w' !! j = Some tj ∧ ∀ k, k ≠ i → file w' !! k = file w !! k).
Proof.
  intros Hfm Hij Hj Hidj. pose proof Hfm as (Hi & Hidi & _).
  assert (i < length (file w)) as Hlen by by eapply lookup_lt_Some.
  assert (j ≠ i) as Hne by lia.
  split; [|split; [|split]].
  - eexists. split.
    + apply run_delete_task_hard_found. apply Exists_exists. exists ti.
      split; [by eapply list_elem_of_lookup_2|done].
    + simpl. split.
      * apply list_filter_iff. intros t. unfold has_id.
        by destruct (py_eq (dict_get t "id") (VStr task_id)).
      * split; intros [Hn _]%list_elem_of_filter; unfold has_id in *; congruence.
  - intros status Hs. eexists _, _.
    split; [by apply (run_update_task_status_found _ _ _ i ti)|]. simpl.
    split; [by apply list_lookup_insert_eq|]. split.
    { destruct (String.eqb status "done");
        by rewrite dict_get_insert_ne, dict_get_insert_ne, dict_get_insert_eq. }
    split; [by rewrite list_lookup_insert_ne|].
    intros k Hk. by apply list_lookup_insert_ne.
  - intros due_date due_time. eexists _, _.
    split; [by apply (run_reschedule_task_found _ _ _ _ i ti)|]. simpl.
    split; [by apply list_lookup_insert_eq|].
    split; [by rewrite dict_get_insert_ne, dict_get_insert_ne, dict_get_insert_eq|].
    split; [by rewrite list_lookup_insert_ne|].
    intros k Hk. by apply list_lookup_insert_ne.
  - eexists _, _.
    split; [by apply (run_delete_task_soft_found _ _ i ti)|]. simpl.
    split; [by apply list_lookup_insert_eq|].
    split; [by rewrite dict_get_insert_ne, dict_get_insert_eq|].
    split; [by rewrite list_lookup_insert_ne|].
    intros k Hk. by apply list_lookup_insert_ne.
Qed.

(** ** Normalizing a payload *)

Lemma run_normalize_task_record (raw : record) (w : world) :
  ∃ rec w',
    run (_normalize_task_record raw) w = (Ok rec, w') ∧
    file w' = file w ∧
    (∃ k, rec !! "id" = Some (default (VStr k) (raw !! "id"))) ∧
    rec !! "status" = Some (default (VStr "todo") (raw !! "status")) ∧
    rec !! "created_at" =
      Some (default (VStr (now (S (tick w)))) (raw !! "created_at")) ∧
    rec !! "completed_at" = Some (dict_get raw "completed_at").
Proof.
  assert (default (py_or (dict_get raw "status") (VStr "todo")) (raw !! "status") =
          default (VStr "todo") (raw !! "status")) as Hstatus.
  { unfold dict_get, py_or. by destruct (raw !! "status"). }
  unfold _normalize_task_record. simpl.
  destruct (truthy (dict_get raw "created_at")) eqn:Htruthy; simpl;
    eexists _, _; (split; [reflexivity|]); (split; [done|]);
    (split; [eexists|split; [|split]]);
    repeat first
      [ rewrite lookup_insert_ne by done
      | rewrite lookup_insert_eq
      | rewrite lookup_setdefault_eq
      | rewrite lookup_setdefault_ne by done ];
    try done; try (by rewrite Hstatus).
  unfold dict_get in *. by destruct (raw !! "created_at").
Qed.


Lemma stored_from_fields (raw rec : record) :
  stored_from raw rec →
  (∃ k, dict_get rec "id" = default (VStr k) (raw !! "id")) ∧
  dict_get rec "status" = default (VStr "todo") (raw !! "status") ∧
  (∃ k, dict_get rec "created_at" = default (VStr (now k)) (raw !! "created_at")) ∧
  dict_get rec "completed_at" = dict_get raw "completed_at".
Proof.
  intros (w1 & rec0 & w2 & Hrun & ->).
  destruct (run_normalize_task_record raw w1)
    as (rec1 & w3 & Hrun' & _ & [k Hid] & Hst & Hcr & Hco).
  rewrite Hrun in Hrun'. injection Hrun' as <- <-.
  unfold dict_get. rewrite !lookup_insert_ne by done.
  rewrite Hid, Hst, Hcr, Hco. simpl. repeat split; eauto.
Qed.

(** ** The upsert loop *)

Lemma index_from_ok (i : nat) (rows pre : list record) (idx : gmap hkey nat) :
  length pre = i → idx_ok idx (pre ++ rows) →
  idx_ok (index_from i rows idx) (pre ++ rows).
Proof.
  revert i pre idx. induction rows as [|t rows IH]; intros i pre idx Hlen Hok; simpl.
  - done.
  - replace (pre ++ t :: rows) with ((pre ++ [t]) ++ rows) in * by by rewrite <- app_assoc.
    apply IH; [rewrite length_app; simpl; lia|].
    destruct (truthy (dict_get t "id")); [|done].
    intros k j. destruct (decide (hkey_of (dict_get t "id") = k)) as [<-|Hne].
    + rewrite lookup_insert_eq. intros [= <-]. exists t. split; [|done].
      rewrite <- app_assoc. simpl. rewrite lookup_app_r by lia.
      by rewrite Hlen, Nat.sub_diag.
    + rewrite lookup_insert_ne by done. apply Hok.
Qed.

Lemma index_by_id_ok (existing : list record) : idx_ok (index_by_id existing) existing.
Proof. apply (index_from_ok 0 existing [] ∅); [done|]. intros k j. by rewrite lookup_empty. Qed.

Lemma upsert_loop_spec (idx : gmap hkey nat) (tasks existing : list record)
    (n : nat) (w : world) :
  idx_ok idx existing →
  ∃ (existing' : list record) w',
    run (upsert_loop idx tasks existing n) w = (Ok (existing', n + length tasks), w') ∧
    file w' = file w ∧
    (length existing ≤ length existing')%nat ∧
    (∀ j r, existing !! j = Some r →
       ∃ r', existing' !! j = Some r' ∧
             hkey_of (dict_get r' "id") = hkey_of (dict_get r "id") ∧
             (r' = r ∨ ∃ raw, raw ∈ tasks ∧ stored_from raw r')) ∧
    (∀ r', r' ∈ existing' →
       r' ∈ existing ∨ ∃ raw, raw ∈ tasks ∧ stored_from raw r') ∧
    (∀ raw, raw ∈ tasks →
       ∃ rec r', stored_from raw rec ∧ r' ∈ existing' ∧
                 hkey_of (dict_get r' "id") = hkey_of (dict_get rec "id")).
Proof.
  revert existing n w. induction tasks as [|raw tasks IH]; intros existing n w Hok.
  - exists existing, w. simpl. rewrite Nat.add_0_r.
    split; [done|]. split; [done|]. split; [done|].
    split; [intros j r Hj; exists r; auto|].
    split; [auto|]. intros raw Hraw. by apply elem_of_nil in Hraw.
  - cbn [upsert_loop]. rewrite run_bind.
    destruct (run_normalize_task_record raw w)
      as (rec0 & w1 & Hnorm & Hfile1 & [k0 Hid] & _).
    rewrite Hnorm. simpl.
    set (rec := <["updated_at" := VStr (now (tick w1))]> rec0).
    assert (stored_from raw rec) as Hstored by by exists w, rec0, w1.
    assert (rec !! "id" = Some (dict_get rec "id")) as Hrecid.
    { unfold dict_get, rec. rewrite lookup_insert_ne by done. by rewrite Hid. }
    unfold getitem. rewrite Hrecid. simpl.
    set (w2 := World (file w1) (S (tick w1))).
    assert (∃ (existing1 : list record) p,
              match idx !! hkey_of (dict_get rec "id") with
              | Some i => lift (setitem existing i rec)
              | None => Ret (existing ++ [rec])
              end = Ret existing1 ∧
              idx_ok idx existing1 ∧
              (length existing ≤ length existing1)%nat ∧
              existing1 !! p = Some rec ∧
              (∀ j r, existing !! j = Some r →
                 ∃ r', existing1 !! j = Some r' ∧
                       hkey_of (dict_get r' "id") = hkey_of (dict_get r "id") ∧
                       (r' = r ∨ r' = rec)) ∧
              (∀ r', r' ∈ existing1 → r' ∈ existing ∨ r' = rec))
      as (existing1 & p & -> & Hok1 & Hlen1 & Hp & Hpos1 & Hmem1).
    { destruct (idx !! hkey_of (dict_get rec "id")) as [i|] eqn:Hidx.
      - destruct (Hok _ _ Hidx) as (old & Hold & Hkey).
        exists (<[i := rec]> existing), i.
        assert (i < length existing) as Hi by by eapply lookup_lt_Some.
        rewrite (setitem_lookup _ _ old) by done. simpl.
        split; [done|]. split; [|split; [by rewrite length_insert|split; [|split]]].
        + intros k j Hkj. destruct (Hok _ _ Hkj) as (r & Hr & Hrk).
          destruct (decide (j = i)) as [->|Hne].
          * exists rec. rewrite list_lookup_insert_eq by done. split; [done|]. congruence.
          * exists r. by rewrite list_lookup_insert_ne.
        + by apply list_lookup_insert_eq.
        + intros j r Hj. destruct (decide (j = i)) as [->|Hne].
          * exists rec. rewrite list_lookup_insert_eq by done.
            split; [done|]. split; [congruence|by right].
          * exists r. rewrite list_lookup_insert_ne by done. auto.
        + intros r' Hr'. apply list_elem_of_lookup in Hr' as [j Hj].
          destruct (decide (j = i)) as [->|Hne].
          * rewrite list_lookup_insert_eq in Hj by done. right. congruence.
          * rewrite list_lookup_insert_ne in Hj by done. left.
            by eapply list_elem_of_lookup_2.
      - exists (existing ++ [rec]), (length existing).
        split; [done|]. split; [|split; [rewrite length_app; lia|split; [|split]]].
        + intros k j Hkj. destruct (Hok _ _ Hkj) as (r & Hr & Hrk).
          exists r. split; [|done]. by apply lookup_app_l_Some.
        + rewrite lookup_app_r by lia. by rewrite Nat.sub_diag.
        + intros j r Hj. exists r. split; [by apply lookup_app_l_Some|auto].
        + intros r' [Hr'|Hr'%list_elem_of_singleton]%elem_of_app; auto. }
    simpl.
    destruct (IH existing1 (S n) w2 Hok1)
      as (existing' & w' & Hrun & Hfile & Hlen & Hpos & Hmem & Hraw).
    exists existing', w'. rewrite Hrun.
    split; [do 3 f_equal; simpl; lia|].
    split; [by rewrite Hfile|]. split; [lia|]. split; [|split].
    + intros j r Hj. destruct (Hpos1 _ _ Hj) as (r1 & Hj1 & Hk1 & Hr1).
      destruct (Hpos _ _ Hj1) as (r' & Hj' & Hk' & Hr').
      exists r'. split; [done|]. split; [congruence|].
      destruct Hr' as [-> |(raw' & Hin & Hst)].
      * destruct Hr1 as [-> | ->]; [by left|]. right. exists raw.
        split; [apply elem_of_cons; by left|done].
      * right. exists raw'. split; [apply elem_of_cons; by right|done].
    + intros r' Hr'. destruct (Hmem _ Hr') as [Hin|(raw' & Hin & Hst)].
      * destruct (Hmem1 _ Hin) as [?| ->]; [by left|]. right. exists raw.
        split; [apply elem_of_cons; by left|done].
      * right. exists raw'. split; [apply elem_of_cons; by right|done].
    + intros raw' [-> |Hin]%elem_of_cons.
      * destruct (Hpos _ _ Hp) as (r' & Hj' & Hk' & _).
        exists rec, r'. split; [done|]. split; [by eapply list_elem_of_lookup_2|done].
      * by apply Hraw.
Qed.

(** [save_extracted_tasks] never raises: it returns the length of the
    batch, and the file it leaves holds, position by position, the id
    keys it held before. *)
Lemma run_save_extracted_tasks (tasks : list record) (w : world) :
  ∃ w',
    run (save_extracted_tasks tasks) w = (Ok (length tasks), w') ∧
    (tasks = [] → w' = w) ∧
    (length (file w) ≤ length (file w'))%nat ∧
    (∀ j r, file w !! j = Some r →
       ∃ r', file w' !! j = Some r' ∧
             hkey_of (dict_get r' "id") = hkey_of (dict_get r "id") ∧
             (r' = r ∨ ∃ raw, raw ∈ tasks ∧ stored_from raw r')) ∧
    (∀ r', r' ∈ file w' →
       r' ∈ file w ∨ ∃ raw, raw ∈ tasks ∧ stored_from raw r') ∧
    (∀ raw, raw ∈ tasks →
       ∃ rec r', stored_from raw rec ∧ r' ∈ file w' ∧
                 hkey_of (dict_get r' "id") = hkey_of (dict_get rec "id")).
Proof.
  destruct tasks as [|raw tasks].
  - exists w. simpl. split; [done|]. split; [done|]. split; [done|].
    split; [intros j r Hj; exists r; auto|]. split; [auto|].
    intros raw Hraw. by apply elem_of_nil in Hraw.
  - unfold save_extracted_tasks, _load. cbn [mbind prog_bind bind run].
    change (bind ?p ?f) with (p ≫= f). rewrite run_bind.
    destruct (upsert_loop_spec (index_by_id (file w)) (raw :: tasks) (file w) 0 w)
      as (existing' & w1 & Hrun & Hfile & Hlen & Hpos & Hmem & Hraw).
    { apply index_by_id_ok. }
    rewrite Hrun. simpl. eexists. split; [reflexivity|]. simpl.
    split; [done|]. by repeat split.
Qed.

(** ** The file after a call *)

(** A single-record call leaves the file as it was (when it raises) or
    rewrites the first match. *)
Lemma after_set_status task_id status (w : world) :
  after (CallSetStatus task_id status) w = w ∨
  ∃ i t,
    first_match task_id (file w) i t ∧ status ∈ allowed ∧
    let t1 := <["updated_at" := VStr (now (tick w))]> (<["status" := VStr status]> t) in
    let t' := if String.eqb status "done"
              then <["completed_at" := VStr (now (S (tick w)))]> t1
              else <["completed_at" := VNone]> t1 in
    file (after (CallSetStatus task_id status) w) = <[i := t']> (file w).
Proof.
  unfold after, perform. rewrite run_perform_value.
  destruct (decide (status ∈ allowed)) as [Hs|Hs];
    [|left; by rewrite run_update_task_status_invalid].
  destruct (no_match_or_match task_id (file w)) as [Hn|Hex];
    [left; by rewrite run_update_task_status_missing|].
  destruct (first_match_exists _ _ Hex) as (i & t & Hfm).
  right. exists i, t. rewrite (run_update_task_status_found _ _ _ i t) by done.
  split; [done|split; [done|]]. simpl. by destruct (String.eqb status "done").
Qed.

Lemma after_reschedule task_id due_date due_time (w : world) :
  after (CallReschedule task_id due_date due_time) w = w ∨
  ∃ i t,
    first_match task_id (file w) i t ∧
    file (after (CallReschedule task_id due_date due_time) w) =
      <[i := <["updated_at" := VStr (now (tick w))]>
               (<["due_time" := opt_val due_time]> (<["due_date" := VStr due_date]> t))]>
        (file w).
Proof.
  unfold after, perform. rewrite run_perform_value.
  destruct (no_match_or_match task_id (file w)) as [Hn|Hex];
    [left; by rewrite run_reschedule_task_missing|].
  destruct (first_match_exists _ _ Hex) as (i & t & Hfm).
  right. exists i, t. by rewrite (run_reschedule_task_found _ _ _ _ i t).
Qed.

Lemma after_soft_delete task_id (w : world) :
  after (CallDelete task_id true) w = w ∨
  ∃ i t,
    first_match task_id (file w) i t ∧
    file (after (CallDelete task_id true) w) =
      <[i := <["updated_at" := VStr (now (tick w))]> (<["status" := VStr "archived"]> t)]>
        (file w).
Proof.
  unfold after, perform.
  destruct (no_match_or_match task_id (file w)) as [Hn|Hex];
    [left; by rewrite run_delete_task_soft_missing|].
  destruct (first_match_exists _ _ Hex) as (i & t & Hfm).
  right. exists i, t. by rewrite (run_delete_task_soft_found _ _ i t).
Qed.

Lemma after_hard_delete task_id (w : world) (r : record) :
  r ∈ file (after (CallDelete task_id false) w) → r ∈ file w.
Proof.
  unfold after, perform.
  destruct (no_match_or_match task_id (file w)) as [Hn|Hex].
  - by rewrite run_delete_task_hard_missing.
  - rewrite run_delete_task_hard_found by done. simpl.
    by intros [_ ?]%list_elem_of_filter.
Qed.

(** A rewrite of one position keeps what holds of every record, when it
    holds of the new one. *)
Lemma Forall_rewrite_first {P : record → Prop} task_id (rows : list record) i t t' :
  first_match task_id rows i t → Forall P rows → (P t → P t') →
  Forall P (<[i := t']> rows).
Proof.
  intros (Hl & _) Hall Ht. apply Forall_insert; [done|].
  apply Ht. rewrite Forall_forall in Hall. apply Hall. by eapply list_elem_of_lookup_2.
Qed.

(** ** Completion and status *)

Lemma completed_inv_set_status (t : record) (status : string) (a b : string) :
  completed_inv
    (if String.eqb status "done"
     then <["completed_at" := VStr b]>
            (<["updated_at" := VStr a]> (<["status" := VStr status]> t))
     else <["completed_at" := VNone]>
            (<["updated_at" := VStr a]> (<["status" := VStr status]> t))).
Proof.
  unfold completed_inv. destruct (String.eqb status "done") eqn:E.
  - apply String.eqb_eq in E as ->.
    rewrite dict_get_insert_eq, !dict_get_insert_ne, dict_get_insert_eq by done. done.
  - apply String.eqb_neq in E.
    rewrite dict_get_insert_eq, !dict_get_insert_ne, dict_get_insert_eq by done.
    split; [done|]. intros [= ?]. done.
Qed.

(** C2 (amended). [update_task_status] leaves the record it rewrites
    with one of the four enumerated statuses; every call keeps the
    statuses of a collection within the enumeration except an upsert
    whose payload carries a [status] key with another value, which is
    stored as supplied. *)
Theorem status_stays_enumerated (w : world) :
  (∀ task_id status t' w',
      run (update_task_status task_id status) w = (Ok t', w') →
      t' ∈ file w' ∧ status_ok t') ∧
  (∀ c, keeps_status c →
      Forall status_ok (file w) → Forall status_ok (file (after c w))).
Proof.
  assert (∀ status (t : record) a b, status ∈ allowed →
            status_ok
              (if String.eqb status "done"
               then <["completed_at" := VStr b]>
                      (<["updated_at" := VStr a]> (<["status" := VStr status]> t))
               else <["completed_at" := VNone]>
                      (<["updated_at" := VStr a]> (<["status" := VStr status]> t))))
    as Hset.
  { intros status t a b Hs. exists status. split; [|done].
    destruct (String.eqb status "done");
      by rewrite 2!dict_get_insert_ne, dict_get_insert_eq. }
  split.
  - intros task_id status t' w' Hrun.
    destruct (decide (status ∈ allowed)) as [Hs|Hs];
      [|by rewrite run_update_task_status_invalid in Hrun].
    destruct (no_match_or_match task_id (file w)) as [Hn|Hex];
      [by rewrite run_update_task_status_missing in Hrun|].
    destruct (first_match_exists _ _ Hex) as (i & t & Hfm).
    rewrite (run_update_task_status_found _ _ _ i t) in Hrun by done.
    injection Hrun as <- <-. simpl. split.
    + apply list_elem_of_insert. destruct Hfm as (Hl & _). by eapply lookup_lt_Some.
    + by apply Hset.
  - intros [tasks|task_id status|task_id due_date due_time|task_id [|]] Hc Hall.
    + unfold after, perform. rewrite run_perform_value.
      destruct (run_save_extracted_tasks tasks w) as (w' & -> & _ & _ & _ & Hmem & _).
      simpl in *. rewrite Forall_forall in *. intros r Hr.
      destruct (Hmem r Hr) as [Hold|(raw & Hraw & Hst)]; [by apply Hall|].
      apply stored_from_fields in Hst as (_ & Hstatus & _).
      destruct (Hc raw Hraw) as [Habs|(s & Hs & Hin)].
      * exists "todo". rewrite Hstatus, Habs. split; [done|]. by apply allowed_iff; left.
      * exists s. by rewrite Hstatus, Hs.
    + destruct (after_set_status task_id status w) as [->|(i & t & Hfm & Hs & ->)]; [done|].
      eapply Forall_rewrite_first; [done..|]. intros _. by apply Hset.
    + destruct (after_reschedule task_id due_date due_time w) as [->|(i & t & Hfm & ->)];
        [done|].
      eapply Forall_rewrite_first; [done..|].
      unfold status_ok. by rewrite !dict_get_insert_ne.
    + destruct (after_soft_delete task_id w) as [->|(i & t & Hfm & ->)]; [done|].
      eapply Forall_rewrite_first; [done..|]. intros _. exists "archived".
      rewrite dict_get_insert_ne, dict_get_insert_eq by done.
      split; [done|]. apply allowed_iff. tauto.
    + rewrite Forall_forall in *. intros r Hr. by eapply Hall, after_hard_delete.
Qed.

(** ** Batches run one after another *)

Lemma index_from_fresh (i : nat) (rows : list record) (idx : gmap hkey nat) (k : hkey) :
  k ∉ id_keys rows → index_from i rows idx !! k = idx !! k.
Proof.
  revert i idx. induction rows as [|t rows IH]; intros i idx Hk; simpl; [done|].
  unfold id_keys in Hk. rewrite fmap_cons, not_elem_of_cons in Hk. destruct Hk as [Hne Hk].
  rewrite IH by done. destruct (truthy (dict_get t "id")); [|done].
  by rewrite lookup_insert_ne.
Qed.

Lemma stored_from_id (raw rec : record) :
  supplies_id raw → stored_from raw rec → dict_get rec "id" = dict_get raw "id".
Proof.
  intros [v Hv] Hst. apply stored_from_fields in Hst as ([k Hid] & _).
  unfold dict_get at 2. by rewrite Hid, Hv.
Qed.

Lemma stored_from_id_keys (tasks recs : list record) :
  Forall supplies_id tasks → Forall2 stored_from tasks recs →
  id_keys recs = id_keys tasks.
Proof.
  intros Hsup Hst. induction Hst as [|raw rec tasks recs Hone _ IH]; [done|].
  inversion Hsup; subst. unfold id_keys in *. rewrite !fmap_cons.
  f_equal; [|by apply IH]. by rewrite (stored_from_id raw rec).
Qed.

Lemma upsert_loop_fresh (idx : gmap hkey nat) (tasks existing : list record)
    (n : nat) (w : world) :
  Forall supplies_id tasks →
  (∀ k, k ∈ id_keys tasks → idx !! k = None) →
  ∃ recs w',
    run (upsert_loop idx tasks existing n) w =
      (Ok (existing ++ recs, n + length tasks), w') ∧
    file w' = file w ∧
    Forall2 stored_from tasks recs.
Proof.
  revert existing n w. induction tasks as [|raw tasks IH]; intros existing n w Hsup Hfresh.
  - exists [], w. simpl. by rewrite app_nil_r, Nat.add_0_r.
  - inversion Hsup as [|?? Hraw Htasks]; subst.
    cbn [upsert_loop]. rewrite run_bind.
    destruct (run_normalize_task_record raw w)
      as (rec0 & w1 & Hnorm & Hfile1 & [k0 Hid] & _).
    rewrite Hnorm. simpl.
    set (rec := <["updated_at" := VStr (now (tick w1))]> rec0).
    assert (stored_from raw rec) as Hstored by by exists w, rec0, w1.
    assert (rec !! "id" = Some (dict_get rec "id")) as Hrecid.
    { unfold dict_get, rec. rewrite lookup_insert_ne by done. by rewrite Hid. }
    unfold getitem. rewrite Hrecid. simpl.
    rewrite (stored_from_id raw rec) by done.
    rewrite Hfresh by (unfold id_keys; rewrite fmap_cons; apply elem_of_cons; by left).
    simpl.
    destruct (IH (existing ++ [rec]) (S n) (World (file w1) (S (tick w1))))
      as (recs & w' & Hrun & Hfile & Hst); [done| |].
    { intros k Hk. apply Hfresh. unfold id_keys in *. rewrite fmap_cons.
      apply elem_of_cons. by right. }
    exists (rec :: recs), w'. rewrite Hrun. rewrite <- app_assoc. simpl.
    split; [do 3 f_equal; lia|]. split; [by rewrite Hfile|]. by constructor.
Qed.

Lemma after_upsert_fresh (tasks : list record) (w : world) :
  Forall supplies_id tasks →
  (∀ k, k ∈ id_keys tasks → k ∉ id_keys (file w)) →
  ∃ recs,
    (run (save_extracted_tasks tasks) w).1 = Ok (length tasks) ∧
    file (after (CallUpsert tasks) w) = file w ++ recs ∧
    Forall2 stored_from tasks recs.
Proof.
  intros Hsup Hfresh. unfold after, perform. rewrite run_perform_value.
  destruct tasks as [|raw tasks].
  - exists []. simpl. by rewrite app_nil_r.
  - unfold save_extracted_tasks, _load. cbn [mbind prog_bind bind run].
    change (bind ?p ?f) with (p ≫= f). rewrite run_bind.
    destruct (upsert_loop_fresh (index_by_id (file w)) (raw :: tasks) (file w) 0 w)
      as (recs & w1 & Hrun & Hfile & Hst); [done| |].
    { intros k Hk. unfold index_by_id. rewrite index_from_fresh by by apply Hfresh.
      apply lookup_empty. }
    rewrite Hrun. simpl. by exists recs.
Qed.

(** C9 (amended). No method holds a lock; what holds is the sequential
    case.  When upsert calls run one after another, each from its load
    to its store, with batches whose payloads all carry an id and whose
    ids are pairwise distinct and absent from the collection, every call
    returns and the final collection is the initial one followed by the
    stored form of every payload, in order: no record is lost. *)
Theorem sequential_upserts_lose_nothing (batches : list (list record)) (w : world) :
  Forall supplies_id (concat batches) →
  NoDup (id_keys (concat batches)) →
  (∀ k, k ∈ id_keys (concat batches) → k ∉ id_keys (file w)) →
  ∃ recs,
    file (run_calls (CallUpsert <$> batches) w) = file w ++ recs ∧
    Forall2 stored_from (concat batches) recs ∧
    ∀ tasks w0, (run (save_extracted_tasks tasks) w0).1 = Ok (length tasks).
Proof.
  intros Hsup Hnodup Hfresh.
  assert (∀ tasks w0, (run (save_extracted_tasks tasks) w0).1 = Ok (length tasks))
    as Hreturns.
  { intros tasks w0. by destruct (run_save_extracted_tasks tasks w0) as (w' & -> & _). }
  revert w Hsup Hnodup Hfresh.
  induction batches as [|b batches IH]; intros w Hsup Hnodup Hfresh.
  - exists []. simpl. rewrite app_nil_r. by repeat split.
  - simpl in Hsup, Hnodup, Hfresh. unfold id_keys in Hnodup, Hfresh.
    rewrite fmap_app in Hnodup, Hfresh.
    apply Forall_app in Hsup as [Hsup_b Hsup_rest].
    apply NoDup_app in Hnodup as (Hnodup_b & Hdisj & Hnodup_rest).
    destruct (after_upsert_fresh b w) as (recs_b & _ & Hfile_b & Hst_b); [done| |].
    { intros k Hk. apply Hfresh, elem_of_app. by left. }
    destruct (IH (after (CallUpsert b) w)) as (recs & Hfile & Hst & _); [done..| |].
    { intros k Hk. rewrite Hfile_b. unfold id_keys. rewrite fmap_app.
      intros [Hin|Hin]%elem_of_app.
      - by apply (Hfresh k); [apply elem_of_app; right|].
      - fold (id_keys recs_b) in Hin. rewrite (stored_from_id_keys b) in Hin by done.
        by apply (Hdisj k). }
    exists (recs_b ++ recs). rewrite fmap_cons. simpl.
    fold (run_calls (CallUpsert <$> batches) (after (CallUpsert b) w)).
    rewrite Hfile, Hfile_b, <- app_assoc.
    split; [done|]. split; [by apply Forall2_app|done].
Qed.

(** * Further properties of the store *)

(** ** What normalization stores *)

Lemma lookup_setdefault (d : record) k k' v :
  setdefault k v d !! k' = if decide (k = k') then Some (default v (d !! k)) else d !! k'.
Proof.
  destruct (decide (k = k')) as [<-|Hne].
  - apply lookup_setdefault_eq.
  - by apply lookup_setdefault_ne.
Qed.

Lemma run_normalize_task_record_lookup (raw : record) (w : world) :
  ∃ rec w',
    run (_normalize_task_record raw) w = (Ok rec, w') ∧
    (∀ k, k ∈ copied_keys → rec !! k = Some (dict_get raw k)) ∧
    (∀ k, k ∈ defaulted_keys → is_Some (rec !! k) ∧
          ∀ v, raw !! k = Some v → rec !! k = Some v) ∧
    (∀ k, k ∉ copied_keys → k ∉ defaulted_keys → rec !! k = raw !! k) ∧
    (raw !! "title" = None →
       rec !! "title" =
         Some (if truthy (dict_get raw "canonical_text")
               then dict_get raw "canonical_text" else VStr "Untitled Task")) ∧
    (raw !! "status" = None → rec !! "status" = Some (VStr "todo")) ∧
    (raw !! "priority" = None → rec !! "priority" = Some (VStr "medium")).
Proof.
  unfold _normalize_task_record. simpl.
  destruct (truthy (dict_get raw "created_at")) eqn:Htruthy; simpl;
    eexists _, _; (split; [reflexivity|]).
  all: split; [|split; [|split; [|split; [|split]]]].
  all: try (intros k Hk; unfold copied_keys in Hk;
            repeat (apply elem_of_cons in Hk as [->|Hk]);
            try (by apply elem_of_nil in Hk);
            by repeat first
               [ rewrite lookup_insert_eq
               | rewrite lookup_insert_ne by done ]).
  all: try (intros k Hk; unfold defaulted_keys in Hk;
            repeat (apply elem_of_cons in Hk as [->|Hk]);
            try (by apply elem_of_nil in Hk);
            repeat first
               [ rewrite lookup_insert_ne by done
               | rewrite lookup_setdefault_eq
               | rewrite lookup_setdefault_ne by done ];
            (split; [by eexists|]); intros v Hv; by rewrite Hv).
  all: try (intros k Hc Hd;
            by repeat first
              [ rewrite lookup_insert_ne
                  by (intros <-;
                      solve [ apply Hc, (bool_decide_unpack _); exact I
                            | apply Hd, (bool_decide_unpack _); exact I ])
              | rewrite lookup_setdefault_ne
                  by (intros <-;
                      solve [ apply Hc, (bool_decide_unpack _); exact I
                            | apply Hd, (bool_decide_unpack _); exact I ]) ]).
  all: intros Habs;
       repeat first
         [ rewrite lookup_insert_ne by done
         | rewrite lookup_setdefault_eq
         | rewrite lookup_setdefault_ne by done ];
       rewrite Habs; unfold py_or, dict_get; rewrite ?Habs; simpl; try done.
  all: by destruct (truthy _).
Qed.

(** ** More on the queries *)

Lemma key_lt_ne (x y : record) :
  (if decide (date_key y = date_key x)
   then String.ltb (time_key y) (time_key x)
   else String.ltb (date_key y) (date_key x)) = true →
  (date_key y, time_key y) ≠ (date_key x, time_key x).
Proof.
  intros Hlt [= Hd Ht]. rewrite decide_True in Hlt by done.
  rewrite Ht in Hlt. by rewrite string_ltb_irrefl in Hlt.
Qed.

Lemma insert_by_key_stable (k : string * string) (x : record) (l l' : list record) :
  sched_typed x → Forall sched_typed l → insert_by_key x l = Ok l' →
  filter (has_key k) l' = filter (has_key k) (x :: l).
Proof.
  intros Hx. revert l'. induction l as [|y l IH]; intros l' Hall; simpl.
  - by intros [= <-].
  - inversion Hall as [|?? Hy Hl]; subst.
    rewrite (sort_key_typed y), (sort_key_typed x), tuple_lt_str by done.
    simpl. destruct (if decide _ then _ else _) eqn:Hlt.
    + destruct (insert_by_key x l) as [l''|] eqn:Hins; simpl; [|done].
      intros [= <-]. apply key_lt_ne in Hlt.
      rewrite (filter_cons _ y l''), (IH l'') by done.
      rewrite !filter_cons.
      destruct (decide (has_key k y)) as [Ey|Ey];
        destruct (decide (has_key k x)) as [Ex|Ex]; try done.
      unfold has_key in Ey, Ex. destruct Hlt. congruence.
    + by intros [= <-].
Qed.

Lemma sort_by_key_stable (k : string * string) (l l' : list record) :
  Forall sched_typed l → sort_by_key l = Ok l' →
  filter (has_key k) l' = filter (has_key k) l.
Proof.
  revert l'. induction l as [|x l IH]; intros l' Hall; simpl.
  - by intros [= <-].
  - inversion Hall as [|?? Hx Hl]; subst.
    destruct (sort_by_key l) as [s|] eqn:Hs; simpl; [|done].
    intros Hins. apply (insert_by_key_stable k) in Hins; [|done|].
    + rewrite Hins, !filter_cons. by rewrite (IH s).
    + apply sort_by_key_perm in Hs. by rewrite Hs.
Qed.

(** X1. On a store whose scheduling fields are null or strings,
    [get_tasks_by_note] returns, leaving file and clock as they were,
    exactly the records whose [note_id] is the given one (and whose
    [workspace_id] is the given one, when provided), whatever their
    status, sorted ascending by [(due_date, due_time)] with the
    sentinels in place of null fields. *)
Theorem get_tasks_by_note_sorted_selection note_id workspace_id (w : world) :
  Forall sched_typed (file w) →
  ∃ l,
    run (get_tasks_by_note note_id workspace_id) w = (Ok l, w) ∧
    l ≡ₚ filter (of_note note_id workspace_id) (file w) ∧
    Sorted key_le l.
Proof.
  intros Hall. unfold get_tasks_by_note. simpl.
  rewrite by_note_loop_filter. simpl.
  destruct (sort_by_key_typed (filter (of_note note_id workspace_id) (file w)))
    as (l & Hsort & Hperm & Hsorted).
  { by apply Forall_filter_keep. }
  rewrite Hsort. simpl. by exists l.
Qed.

(** X2. Both queries sort stably: on a store whose scheduling fields are
    null or strings, the selected records that share a sort key come
    back in the order the collection holds them. *)
Theorem queries_keep_collection_order_on_ties (w : world) (k : string * string) :
  Forall sched_typed (file w) →
  (∀ note_id workspace_id l,
     (run (get_tasks_by_note note_id workspace_id) w).1 = Ok l →
     filter (has_key k) l =
     filter (has_key k) (filter (of_note note_id workspace_id) (file w))) ∧
  (∀ start_date end_date workspace_id user_id include_done l,
     (run (get_tasks_by_date_range start_date end_date workspace_id user_id
             include_done) w).1 = Ok l →
     filter (has_key k) l =
     filter (has_key k)
       (filter (in_date_range start_date end_date workspace_id user_id include_done)
          (file w))).
Proof.
  intros Hall. split.
  - intros note_id workspace_id l. unfold get_tasks_by_note. simpl.
    rewrite by_note_loop_filter. simpl.
    destruct (sort_by_key _) as [s|] eqn:Hsort; simpl; [|done].
    intros [= <-]. apply sort_by_key_stable; [|done]. by apply Forall_filter_keep.
  - intros start_date end_date workspace_id user_id include_done l.
    unfold get_tasks_by_date_range. simpl.
    rewrite date_range_loop_typed by done. simpl.
    destruct (sort_by_key _) as [s|] eqn:Hsort; simpl; [|done].
    intros [= <-]. apply sort_by_key_stable; [|done]. by apply Forall_filter_keep.
Qed.

(** X3. Whatever the store holds and whatever they return or raise, the
    two queries write nothing and read no clock, and a result they
    return consists of records of the file. *)
Theorem queries_never_write (w : world) :
  (∀ note_id workspace_id,
     (run (get_tasks_by_note note_id workspace_id) w).2 = w ∧
     ∀ l, (run (get_tasks_by_note note_id workspace_id) w).1 = Ok l → l ⊆ file w) ∧
  (∀ start_date end_date workspace_id user_id include_done,
     (run (get_tasks_by_date_range start_date end_date workspace_id user_id
             include_done) w).2 = w ∧
     ∀ l, (run (get_tasks_by_date_range start_date end_date workspace_id user_id
                  include_done) w).1 = Ok l → l ⊆ file w).
Proof.
  split.
  - intros note_id workspace_id. split.
    + unfold get_tasks_by_note. simpl. by destruct (sort_by_key _).
    + intros l Hl. destruct (run _ w) as [res w'] eqn:Hrun. simpl in Hl. subst res.
      by apply run_get_tasks_by_note_subset in Hrun as [_ ?].
  - intros start_date end_date workspace_id user_id include_done. split.
    + unfold get_tasks_by_date_range. simpl.
      destruct (date_range_loop _ _ _ _ _ _ _); simpl; [|done].
      by destruct (sort_by_key _).
    + intros l Hl. destruct (run _ w) as [res w'] eqn:Hrun. simpl in Hl. subst res.
      by apply run_get_tasks_by_date_range_subset in Hrun as [_ ?].
Qed.

Lemma in_range_raises start_date end_date (due : val) (e : exn) :
  in_range start_date end_date due = Raise e → e = TypeError.
Proof.
  unfold in_range. destruct due as [|[]|z|s]; simpl; try by intros [= <-].
  destruct (String.leb start_date s); simpl; by intros [=].
Qed.

Lemma date_range_loop_type_error start_date end_date workspace_id user_id include_done
    (rows results : list record) (r : record) :
  r ∈ rows →
  truthy (dict_get r "due_date") = true →
  (∀ s, dict_get r "due_date" ≠ VStr s) →
  date_range_loop start_date end_date workspace_id user_id include_done rows results
  = Raise TypeError.
Proof.
  intros Hin Htruthy Hnostr. revert results.
  induction rows as [|t rows IH]; intros results; [by apply elem_of_nil in Hin|].
  simpl. apply elem_of_cons in Hin as [<-|Hin].
  - rewrite Htruthy. simpl. unfold in_range.
    destruct (dict_get r "due_date") as [|[]|z|s]; try done. by destruct (Hnostr s).
  - destruct (negb (truthy _)); [by apply IH|].
    destruct (in_range _ _ _) as [b|e] eqn:Hrange; simpl.
    + repeat (match goal with |- context [if ?c then _ else _] => destruct c end;
              [by apply IH|]).
      by apply IH.
    + by apply in_range_raises in Hrange as ->.
Qed.

(** X4. A record whose [due_date] is truthy but not a string (a non-zero
    number, [True]) makes every date-range query raise [TypeError],
    whatever the bounds and filters; the file is left as it was. *)
Theorem non_string_due_date_breaks_range_queries (w : world) (r : record)
    start_date end_date workspace_id user_id include_done :
  r ∈ file w →
  truthy (dict_get r "due_date") = true →
  (∀ s, dict_get r "due_date" ≠ VStr s) →
  run (get_tasks_by_date_range start_date end_date workspace_id user_id include_done) w
  = (Raise TypeError, w).
Proof.
  intros Hin Htruthy Hnostr. unfold get_tasks_by_date_range. simpl.
  by rewrite (date_range_loop_type_error _ _ _ _ _ _ _ r).
Qed.

Lemma run_get_tasks_by_date_range_of_sort start_date end_date workspace_id user_id
    include_done (w : world) (l : list record) :
  Forall sched_typed (file w) →
  sort_by_key
    (filter (in_date_range start_date end_date workspace_id user_id include_done)
       (file w)) = Ok l →
  run (get_tasks_by_date_range start_date end_date workspace_id user_id include_done) w
  = (Ok l, w).
Proof.
  intros Hall Hsort. unfold get_tasks_by_date_range. simpl.
  rewrite date_range_loop_typed by done. simpl. by rewrite Hsort.
Qed.

(** X5. A soft delete does not hide a task from the calendar: on a store
    whose scheduling fields are null or strings, the archived record is
    still returned by every date-range query whose bounds and filters
    its record matched before, also when [include_done] is false. *)
Theorem archived_stays_in_range_queries (w : world) (task_id : string) (i : nat)
    (t : record) start_date end_date workspace_id user_id :
  Forall sched_typed (file w) →
  first_match task_id (file w) i t →
  in_date_range start_date end_date workspace_id user_id true t →
  ∃ t' w' l,
    run (delete_task task_id true) w = (Ok tt, w') ∧
    file w' !! i = Some t' ∧
    dict_get t' "status" = VStr "archived" ∧
    run (get_tasks_by_date_range start_date end_date workspace_id user_id false) w'
      = (Ok l, w') ∧
    t' ∈ l.
Proof.
  intros Htyped Hfm Hsel. pose proof Hfm as (Hl & _).
  assert (i < length (file w)) as Hi by by eapply lookup_lt_Some.
  set (t' := <["updated_at" := VStr (now (tick w))]> (<["status" := VStr "archived"]> t)).
  set (w' := World (<[i := t']> (file w)) (S (tick w))).
  assert (sched_typed t') as Ht'.
  { rewrite Forall_forall in Htyped.
    destruct (Htyped t) as [Hd Htm]; [by eapply list_elem_of_lookup_2|].
    split; unfold t'; by rewrite !dict_get_insert_ne. }
  assert (Forall sched_typed (file w')) as Htyped' by by apply Forall_insert_keep.
  destruct (sort_by_key_typed
              (filter (in_date_range start_date end_date workspace_id user_id false)
                 (file w'))) as (l & Hsort & Hperm & _).
  { by apply Forall_filter_keep. }
  exists t', w', l. split; [by apply run_delete_task_soft_found|].
  split; [by apply list_lookup_insert_eq|].
  split; [unfold t'; by rewrite dict_get_insert_ne, dict_get_insert_eq|].
  split.
  - by apply run_get_tasks_by_date_range_of_sort.
  - rewrite Hperm. apply list_elem_of_filter. split.
    + destruct Hsel as (Hdue & Hws & Hu & _). unfold in_date_range, t'.
      rewrite !dict_get_insert_ne by done. split; [done|].
      split; [destruct workspace_id; simpl in *; [|done]; by rewrite !dict_get_insert_ne|].
      split; [destruct user_id; simpl in *; [|done]; by rewrite !dict_get_insert_ne|].
      intros _. by rewrite dict_get_insert_eq.
    + by apply list_elem_of_insert.
Qed.

(** ** More on upserts *)

Lemma stored_from_lookup (raw rec : record) :
  stored_from raw rec →
  (∀ k, k ∈ copied_keys → rec !! k = Some (dict_get raw k)) ∧
  (∀ k, k ∈ defaulted_keys → is_Some (rec !! k) ∧
        (k ≠ "updated_at" → ∀ v, raw !! k = Some v → rec !! k = Some v)) ∧
  (∀ k, k ∉ copied_keys → k ∉ defaulted_keys → rec !! k = raw !! k) ∧
  (raw !! "title" = None →
     rec !! "title" =
       Some (if truthy (dict_get raw "canonical_text")
             then dict_get raw "canonical_text" else VStr "Untitled Task")) ∧
  (raw !! "status" = None → rec !! "status" = Some (VStr "todo")) ∧
  (raw !! "priority" = None → rec !! "priority" = Some (VStr "medium")) ∧
  (∃ n, rec !! "updated_at" = Some (VStr (now n))).
Proof.
  intros (w1 & rec0 & w2 & Hrun & ->).
  destruct (run_normalize_task_record_lookup raw w1)
    as (rec1 & w3 & Hrun' & Hcopied & Hdefaulted & Hother & Htitle & Hstatus & Hprio).
  rewrite Hrun in Hrun'. injection Hrun' as <- <-.
  split; [|split; [|split; [|split; [|split; [|split]]]]].
  - intros k Hk. rewrite lookup_insert_ne; [by apply Hcopied|].
    intros <-. revert Hk. apply (bool_decide_unpack _). exact I.
  - intros k Hk. destruct (Hdefaulted k Hk) as [Hsome Hkeep].
    destruct (decide (k = "updated_at")) as [->|Hne].
    + rewrite lookup_insert_eq. split; [by eexists|done].
    + rewrite lookup_insert_ne by done. split; [done|]. intros _. apply Hkeep.
  - intros k Hc Hd. rewrite lookup_insert_ne; [by apply Hother|].
    intros <-. apply Hd, (bool_decide_unpack _). exact I.
  - intros Habs. rewrite lookup_insert_ne by done. by apply Htitle.
  - intros Habs. rewrite lookup_insert_ne by done. by apply Hstatus.
  - intros Habs. rewrite lookup_insert_ne by done. by apply Hprio.
  - eexists. apply lookup_insert_eq.
Qed.

(** X6. What an upsert stores for a payload: the eight correlation,
    schedule and provenance keys are [task.get(key)] (null when the
    payload lacks them); a value the payload gives for [id], [title],
    [status], [priority] or [created_at] is kept as it is, also when it
    is null or empty; absent, [title] becomes the truthy
    [canonical_text] or ["Untitled Task"], [status] ['todo'] and
    [priority] ['medium']; every other key of the payload is carried
    over; and [updated_at] is a clock reading. *)
Theorem stored_record_fields (raw rec : record) :
  stored_from raw rec →
  (∀ k, k ∈ copied_keys → rec !! k = Some (dict_get raw k)) ∧
  (∀ k v, k ∈ defaulted_keys → k ≠ "updated_at" → raw !! k = Some v → rec !! k = Some v) ∧
  (∀ k, k ∉ copied_keys → k ∉ defaulted_keys → rec !! k = raw !! k) ∧
  (raw !! "title" = None →
     rec !! "title" =
       Some (if truthy (dict_get raw "canonical_text")
             then dict_get raw "canonical_text" else VStr "Untitled Task")) ∧
  (raw !! "status" = None → rec !! "status" = Some (VStr "todo")) ∧
  (raw !! "priority" = None → rec !! "priority" = Some (VStr "medium")) ∧
  (∃ n, rec !! "updated_at" = Some (VStr (now n))) ∧
  (∀ k, k ∈ copied_keys ++ defaulted_keys → is_Some (rec !! k)).
Proof.
  intros Hst.
  destruct (stored_from_lookup raw rec Hst)
    as (Hcopied & Hdefaulted & Hother & Htitle & Hstatus & Hprio & Hupd).
  split; [done|]. split.
  { intros k v Hk Hne Hv. by apply (Hdefaulted k Hk). }
  split; [done|]. split; [done|]. split; [done|]. split; [done|]. split; [done|].
  intros k [Hk|Hk]%elem_of_app.
  - rewrite (Hcopied k Hk). by eexists.
  - by apply (Hdefaulted k Hk).
Qed.

(** X7. Upserting a record as the store holds it stores it again with a
    new [updated_at] and nothing else changed. *)
Theorem reupsert_changes_only_updated_at (raw rec rec' : record) :
  stored_from raw rec → stored_from rec rec' →
  ∀ k, k ≠ "updated_at" → rec' !! k = rec !! k.
Proof.
  intros Hst Hst' k Hne.
  destruct (stored_from_lookup raw rec Hst) as (Hcopied & Hdefaulted & _).
  destruct (stored_from_lookup rec rec' Hst') as (Hcopied' & Hdefaulted' & Hother' & _).
  destruct (decide (k ∈ copied_keys)) as [Hc|Hc].
  - rewrite (Hcopied' k Hc). unfold dict_get. by rewrite (Hcopied k Hc).
  - destruct (decide (k ∈ defaulted_keys)) as [Hd|Hd].
    + destruct (Hdefaulted k Hd) as [[v Hv] _]. rewrite Hv.
      by apply (Hdefaulted' k Hd).
    + by apply Hother'.
Qed.

Lemma index_from_none (i : nat) (rows : list record) (idx : gmap hkey nat) (k : hkey) :
  Forall (λ r, ¬ indexed_as k r) rows → index_from i rows idx !! k = idx !! k.
Proof.
  revert i idx. induction rows as [|t rows IH]; intros i idx Hall; simpl; [done|].
  inversion Hall as [|?? Ht Hrows]; subst. rewrite IH by done.
  destruct (truthy (dict_get t "id")) eqn:Htruthy; [|done].
  rewrite lookup_insert_ne; [done|]. intros Hk. by apply Ht.
Qed.

Lemma index_from_last (i : nat) (pre post : list record) (r : record)
    (idx : gmap hkey nat) (k : hkey) :
  indexed_as k r → Forall (λ r, ¬ indexed_as k r) post →
  index_from i (pre ++ r :: post) idx !! k = Some (i + length pre).
Proof.
  intros [Htruthy Hk] Hpost. revert i idx.
  induction pre as [|t pre IH]; intros i idx; simpl.
  - rewrite index_from_none by done. rewrite Htruthy, Hk, lookup_insert_eq.
    by rewrite Nat.add_0_r.
  - rewrite IH. f_equal. lia.
Qed.




Lemma hkey_of_str (v : val) (s : string) : hkey_of v = HStr s → v = VStr s.
Proof. destruct v as [|[]| |]; simpl; congruence. Qed.

(** X9. Whenever an upsert returns, it returns the length of the batch;
    an empty batch touches neither file nor clock; the collection has
    not shrunk or been reordered: every position keeps a record with
    the same id, and every id a payload supplies is the id of some
    record afterwards. *)
Theorem save_extracted_tasks_never_shrinks (tasks : list record) (w : world) (n : nat) :
  (run (save_extracted_tasks tasks) w).1 = Ok n →
  n = length tasks ∧
  (tasks = [] → (run (save_extracted_tasks tasks) w).2 = w) ∧
  (length (file w) ≤ length (file (run (save_extracted_tasks tasks) w).2))%nat ∧
  (∀ j r, file w !! j = Some r →
     ∃ r', file (run (save_extracted_tasks tasks) w).2 !! j = Some r' ∧
           hkey_of (dict_get r' "id") = hkey_of (dict_get r "id")) ∧
  (∀ raw v, raw ∈ tasks → raw !! "id" = Some v →
     ∃ r', r' ∈ file (run (save_extracted_tasks tasks) w).2 ∧
           hkey_of (dict_get r' "id") = hkey_of v).
Proof.
  destruct (run_save_extracted_tasks tasks w)
    as (w' & Hrun & Hempty & Hlen & Hpos & _ & Hraw).
  rewrite Hrun. simpl. intros [= <-].
  split; [done|]. split; [done|]. split; [done|]. split.
  - intros j r Hj. destruct (Hpos j r Hj) as (r' & Hj' & Hk & _). by exists r'.
  - intros raw v Hin Hv. destruct (Hraw raw Hin) as (rec & r' & Hst & Hin' & Hk).
    exists r'. split; [done|]. rewrite Hk, (stored_from_id raw rec); [|by eexists|done].
    unfold dict_get. by rewrite Hv.
Qed.

(** X10. After an upsert of a batch, every string id that a payload of
    the batch supplies is found: [reschedule_task], [update_task_status]
    (with an enumerated status) and [delete_task] on that id return
    instead of raising [KeyError]. *)
Theorem upsert_then_found (tasks : list record) (raw : record) (s : string) (w : world) :
  raw ∈ tasks → raw !! "id" = Some (VStr s) →
  Exists (has_id s) (file (after (CallUpsert tasks) w)) ∧
  (∀ due_date due_time, ∃ t' w',
     run (reschedule_task s due_date due_time) (after (CallUpsert tasks) w) = (Ok t', w')) ∧
  (∀ status, status ∈ allowed → ∃ t' w',
     run (update_task_status s status) (after (CallUpsert tasks) w) = (Ok t', w')) ∧
  (∀ soft_delete, ∃ w',
     run (delete_task s soft_delete) (after (CallUpsert tasks) w) = (Ok tt, w')).
Proof.
  intros Hin Hid.
  assert (Exists (has_id s) (file (after (CallUpsert tasks) w))) as Hex.
  { unfold after, perform. rewrite run_perform_value.
    destruct (run_save_extracted_tasks tasks w) as (w' & -> & _ & _ & _ & _ & Hraw).
    simpl. destruct (Hraw raw Hin) as (rec & r' & Hst & Hin' & Hk).
    apply Exists_exists. exists r'. split; [done|]. apply has_id_iff, hkey_of_str.
    rewrite Hk, (stored_from_id raw rec); [|by eexists|done].
    unfold dict_get. by rewrite Hid. }
  destruct (first_match_exists _ _ Hex) as (i & t & Hfm).
  split; [done|]. split; [|split].
  - intros due_date due_time. eexists _, _. by apply (run_reschedule_task_found _ _ _ _ i t).
  - intros status Hs. eexists _, _. by apply (run_update_task_status_found _ _ _ i t).
  - intros [|]; eexists.
    + by apply (run_delete_task_soft_found _ _ i t).
    + by apply run_delete_task_hard_found.
Qed.

(** X11. After a hard delete that found the id, the id is gone for good:
    [reschedule_task], [update_task_status] and [delete_task] on it
    raise [KeyError] and change nothing, while every record with
    another id is still in the collection. *)
Theorem hard_delete_then_not_found (task_id : string) (w : world) :
  Exists (has_id task_id) (file w) →
  (∀ due_date due_time,
     run (reschedule_task task_id due_date due_time) (after (CallDelete task_id false) w)
     = (Raise KeyError, after (CallDelete task_id false) w)) ∧
  (∀ status, status ∈ allowed →
     run (update_task_status task_id status) (after (CallDelete task_id false) w)
     = (Raise KeyError, after (CallDelete task_id false) w)) ∧
  (∀ soft_delete,
     run (delete_task task_id soft_delete) (after (CallDelete task_id false) w)
     = (Raise KeyError, after (CallDelete task_id false) w)) ∧
  (∀ r, r ∈ file w → ¬ has_id task_id r → r ∈ file (after (CallDelete task_id false) w)).
Proof.
  intros Hex.
  assert (file (after (CallDelete task_id false) w) =
          filter (λ t, py_eq (dict_get t "id") (VStr task_id) = false) (file w)) as Hfile.
  { unfold after, perform. by rewrite run_delete_task_hard_found. }
  assert (Forall (λ t, ¬ has_id task_id t) (file (after (CallDelete task_id false) w)))
    as Hgone.
  { rewrite Hfile. apply Forall_forall. intros t [Hne _]%list_elem_of_filter.
    unfold has_id. congruence. }
  split; [|split; [|split]].
  - intros due_date due_time. by apply run_reschedule_task_missing.
  - intros status Hs. by apply run_update_task_status_missing.
  - intros [|]; [by apply run_delete_task_soft_missing|by apply run_delete_task_hard_missing].
  - intros r Hin Hne. rewrite Hfile. apply list_elem_of_filter. split; [|done].
    unfold has_id in Hne. by destruct (py_eq _ _).
Qed.

(** ** Resolving URIs *)

Lemma startswith_app (p s : string) : startswith p (p +:+ s) = true.
Proof. induction p as [|a p IH]; simpl; [done|]. by rewrite Ascii.eqb_refl. Qed.


Lemma resolve_with_scheme (base_path rel : string) :
  _resolve base_path ("fs://" +:+ rel) = os_path_join base_path rel.
Proof. done. Qed.

Lemma absolute_has_no_scheme (rel : string) :
  startswith "/" rel = true → startswith "fs://" rel = false.
Proof.
  destruct rel as [|c rel]; [done|].
  by destruct c as [[] [] [] [] [] [] [] []].
Qed.

(** X12. A URI whose path part is absolute escapes the storage root:
    with or without the ["fs://"] scheme, it resolves to that absolute
    path itself, whatever [base_path] is. *)
Theorem resolve_absolute_ignores_base (base_path rel : string) :
  startswith "/" rel = true →
  _resolve base_path rel = rel ∧ _resolve base_path ("fs://" +:+ rel) = rel.
Proof.
  intros Habs. split.
  - unfold _resolve. rewrite absolute_has_no_scheme by done.
    unfold os_path_join. by rewrite Habs.
  - rewrite resolve_with_scheme. unfold os_path_join. by rewrite Habs.
Qed.


(** X14. A record whose id is not a string (null when the payload gave
    ["id": null], a number) cannot be addressed by a string [task_id],
    the type the three signatures annotate: no [update_task_status],
    [reschedule_task] or [delete_task] called with a string [task_id],
    whatever the string and the other arguments, changes or removes
    it. *)
Theorem non_string_id_is_unreachable (c : call) (w : world) (r : record) :
  ¬ is_upsert c →
  r ∈ file w → (∀ s, dict_get r "id" ≠ VStr s) →
  r ∈ file (after c w).
Proof.
  intros Hc Hin Hid.
  assert (∀ task_id i t t', first_match task_id (file w) i t → r ∈ <[i := t']> (file w))
    as Hkept.
  { intros task_id i t t' (Hl & Ht & _).
    apply list_elem_of_lookup in Hin as [j Hj].
    destruct (decide (j = i)) as [->|Hne].
    - rewrite Hl in Hj. injection Hj as <-. apply has_id_iff in Ht. by destruct (Hid task_id).
    - apply (list_elem_of_lookup_2 _ j). by rewrite list_lookup_insert_ne. }
  destruct c as [tasks|task_id status|task_id due_date due_time|task_id [|]];
    [by destruct Hc|..].
  - destruct (after_set_status task_id status w) as [->|(i & t & Hfm & _ & ->)]; [done|].
    by eapply Hkept.
  - destruct (after_reschedule task_id due_date due_time w) as [->|(i & t & Hfm & ->)];
      [done|].
    by eapply Hkept.
  - destruct (after_soft_delete task_id w) as [->|(i & t & Hfm & ->)]; [done|].
    by eapply Hkept.
  - unfold after, perform.
    destruct (no_match_or_match task_id (file w)) as [Hn|Hex].
    + by rewrite run_delete_task_hard_missing.
    + rewrite run_delete_task_hard_found by done. simpl.
      apply list_elem_of_filter. split; [|done].
      destruct (py_eq (dict_get r "id") (VStr task_id)) eqn:E; [|done].
      apply py_eq_str in E. by destruct (Hid task_id).
Qed.

(** ** Upserts, clock reading by clock reading *)


Lemma stored_at_from (k : nat) (raw rec : record) :
  stored_at k raw rec → stored_from raw rec.
Proof. intros (w1 & rec0 & w2 & _ & Hrun & ->). by exists w1, rec0, w2. Qed.




(** The file after an upsert of one payload. *)
Lemma after_upsert_single (raw : record) (w : world) :
  ∃ rec,
    stored_at (tick w) raw rec ∧
    rec ∈ file (after (CallUpsert [raw]) w) ∧
    (Forall (λ r, ¬ indexed_as (hkey_of (dict_get rec "id")) r) (file w) →
       file (after (CallUpsert [raw]) w) = file w ++ [rec]) ∧
    (∀ pre r post,
       file w = pre ++ r :: post →
       indexed_as (hkey_of (dict_get rec "id")) r →
       Forall (λ r, ¬ indexed_as (hkey_of (dict_get rec "id")) r) post →
       file (after (CallUpsert [raw]) w) = pre ++ rec :: post).
Proof.
  destruct (run_normalize_task_record raw w)
    as (rec0 & w1 & Hnorm & Hfile1 & [k0 Hid] & _).
  set (rec := <["updated_at" := VStr (now (tick w1))]> rec0).
  assert (rec !! "id" = Some (dict_get rec "id")) as Hrecid.
  { unfold dict_get, rec. rewrite lookup_insert_ne by done. by rewrite Hid. }
  assert (∀ idx (existing : list record),
            run (upsert_loop idx [raw] existing 0) w =
            match idx !! hkey_of (dict_get rec "id") with
            | Some i =>
                match setitem existing i rec with
                | Ok existing' => (Ok (existing', 1), World (file w1) (S (tick w1)))
                | Raise e => (Raise e, World (file w1) (S (tick w1)))
                end
            | None => (Ok (existing ++ [rec], 1), World (file w1) (S (tick w1)))
            end) as Hloop.
  { intros idx existing. cbn [upsert_loop]. rewrite run_bind, Hnorm. simpl. fold rec.
    unfold getitem. rewrite Hrecid. simpl.
    destruct (idx !! hkey_of (dict_get rec "id")) as [i|]; simpl; [|done].
    by destruct (setitem existing i rec). }
  assert (run (save_extracted_tasks [raw]) w =
          run (upsert_loop (index_by_id (file w)) [raw] (file w) 0
               ≫= (λ '(existing', written), _save existing';; Ret written)) w)
    as Hsave by done.
  exists rec. split; [by exists w, rec0, w1|].
  unfold after, perform. rewrite run_perform_value, Hsave, run_bind, Hloop.
  split; [|split].
  - destruct (index_by_id (file w) !! hkey_of (dict_get rec "id")) as [i|] eqn:Hidx.
    + destruct (index_by_id_ok (file w) _ _ Hidx) as (old & Hold & _).
      rewrite (setitem_lookup _ _ old) by done. simpl.
      apply list_elem_of_insert. by eapply lookup_lt_Some.
    + simpl. apply elem_of_app. right. by apply list_elem_of_singleton.
  - intros Hnone. unfold index_by_id. rewrite index_from_none by done.
    by rewrite lookup_empty.
  - intros pre r post Hw Hr Hpost.
    unfold index_by_id. rewrite Hw at 1. rewrite index_from_last by done. simpl.
    unfold setitem. rewrite bool_decide_eq_true_2.
    + simpl. rewrite Hw, insert_app_r_alt by lia. by rewrite Nat.sub_diag.
    + rewrite Hw, length_app. simpl. lia.
Qed.

(** ** Completion *)

Lemma stored_completion (raw rec : record) :
  stored_from raw rec →
  dict_get rec "completed_at" = dict_get raw "completed_at" ∧
  dict_get rec "status" = default (VStr "todo") (raw !! "status").
Proof. intros Hst. by apply stored_from_fields in Hst as (_ & ? & _ & ?). Qed.

(** C1 (amended). [update_task_status] leaves the record it rewrites
    with [completed_at] non-null exactly when its status is ['done'].
    An upsert stores each payload with the payload's own [completed_at]
    (null when absent) and status (['todo'] when absent), whatever they
    are, and a soft delete sets the status of its target to ['archived']
    and leaves its [completed_at] as it was.  So the equivalence is kept,
    on every record of a collection that had it, by
    [update_task_status], [reschedule_task] and a hard delete, by an
    upsert of payloads whose [completed_at] and status agree, and by a
    soft delete whose target has a null [completed_at]. *)
Theorem completed_at_follows_status (w : world) :
  (∀ task_id status t' w',
      run (update_task_status task_id status) w = (Ok t', w') →
      t' ∈ file w' ∧ completed_inv t') ∧
  (∀ c, keeps_completion w c →
      Forall completed_inv (file w) → Forall completed_inv (file (after c w))) ∧
  (∀ tasks r', r' ∈ file (after (CallUpsert tasks) w) →
      r' ∈ file w ∨
      ∃ raw, raw ∈ tasks ∧ stored_from raw r' ∧
        dict_get r' "completed_at" = dict_get raw "completed_at" ∧
        dict_get r' "status" = default (VStr "todo") (raw !! "status")) ∧
  (∀ raw, ∃ rec,
      rec ∈ file (after (CallUpsert [raw]) w) ∧ stored_from raw rec ∧
      dict_get rec "completed_at" = dict_get raw "completed_at" ∧
      dict_get rec "status" = default (VStr "todo") (raw !! "status")) ∧
  (∀ task_id i t, first_match task_id (file w) i t →
      ∃ t', file (after (CallDelete task_id true) w) !! i = Some t' ∧
            dict_get t' "status" = VStr "archived" ∧
            t' !! "completed_at" = t !! "completed_at").
Proof.
  assert (∀ tasks r', r' ∈ file (after (CallUpsert tasks) w) →
            r' ∈ file w ∨
            ∃ raw, raw ∈ tasks ∧ stored_from raw r' ∧
              dict_get r' "completed_at" = dict_get raw "completed_at" ∧
              dict_get r' "status" = default (VStr "todo") (raw !! "status")) as Hupsert.
  { intros tasks r'. unfold after, perform. rewrite run_perform_value.
    destruct (run_save_extracted_tasks tasks w) as (w' & -> & _ & _ & _ & Hmem & _).
    simpl. intros Hr'. destruct (Hmem r' Hr') as [?|(raw & Hraw & Hst)]; [by left|].
    right. exists raw. destruct (stored_completion raw r' Hst). by repeat split. }
  assert (∀ task_id i t, first_match task_id (file w) i t →
            file (after (CallDelete task_id true) w) =
            <[i := <["updated_at" := VStr (now (tick w))]>
                     (<["status" := VStr "archived"]> t)]> (file w)) as Hsoft.
  { intros task_id i t Hfm. unfold after, perform.
    by rewrite (run_delete_task_soft_found _ _ i t). }
  split; [|split; [|split; [done|split]]].
  - intros task_id status t' w' Hrun.
    destruct (decide (status ∈ allowed)) as [Hs|Hs];
      [|by rewrite run_update_task_status_invalid in Hrun].
    destruct (no_match_or_match task_id (file w)) as [Hn|Hex];
      [by rewrite run_update_task_status_missing in Hrun|].
    destruct (first_match_exists _ _ Hex) as (i & t & Hfm).
    rewrite (run_update_task_status_found _ _ _ i t) in Hrun by done.
    injection Hrun as <- <-. simpl. split.
    + apply list_elem_of_insert. destruct Hfm as (Hl & _). by eapply lookup_lt_Some.
    + apply completed_inv_set_status.
  - intros [tasks|task_id status|task_id due_date due_time|task_id [|]] Hc Hall.
    + rewrite Forall_forall in *. intros r' Hr'.
      destruct (Hupsert tasks r' Hr') as [Hold|(raw & Hraw & _ & Hco & Hst)];
        [by apply Hall|].
      simpl in Hc. rewrite Forall_forall in Hc.
      unfold completed_inv. rewrite Hco, Hst. by apply Hc.
    + destruct (after_set_status task_id status w) as [->|(i & t & Hfm & _ & ->)]; [done|].
      eapply Forall_rewrite_first; [done..|]. intros _. apply completed_inv_set_status.
    + destruct (after_reschedule task_id due_date due_time w) as [->|(i & t & Hfm & ->)];
        [done|].
      eapply Forall_rewrite_first; [done..|].
      unfold completed_inv. by rewrite !dict_get_insert_ne.
    + destruct (after_soft_delete task_id w) as [->|(i & t & Hfm & ->)]; [done|].
      eapply Forall_rewrite_first; [done..|]. intros _.
      unfold completed_inv.
      rewrite dict_get_insert_ne, dict_get_insert_ne, (Hc i t Hfm) by done.
      rewrite dict_get_insert_ne, dict_get_insert_eq by done. split; [done|]. by intros [=].
    + rewrite Forall_forall in *. intros r Hr. by eapply Hall, after_hard_delete.
  - intros raw. destruct (after_upsert_single raw w) as (rec & Hst & Hin & _).
    apply stored_at_from in Hst. exists rec.
    destruct (stored_completion raw rec Hst). by repeat split.
  - intros task_id i t Hfm. rewrite (Hsoft task_id i t Hfm). eexists. split.
    + apply list_lookup_insert_eq. destruct Hfm as (Hl & _). by eapply lookup_lt_Some.
    + split; [by rewrite dict_get_insert_ne, dict_get_insert_eq|].
      by rewrite !lookup_insert_ne.
Qed.

(** ** Creation time *)


End Properties.

(** * The claims on sample data *)

Section Samples.
#[local] Existing Instance sample_env.

Lemma sample_rows_typed : Forall sched_typed dup_rows.
Proof. repeat constructor. Qed.

Lemma sample_has_A : Exists (has_id "A") dup_rows.
Proof. apply Exists_cons_hd. reflexivity. Qed.

Lemma sample_rows_completed : Forall completed_inv dup_rows.
Proof. repeat constructor; intros Hx; vm_compute in Hx; congruence. Qed.

Lemma sample_rows_status : Forall status_ok dup_rows.
Proof.
  repeat constructor; exists "todo"; (split; [reflexivity|]); apply allowed_iff; tauto.
Qed.

(** C2, counterexample: an upsert of a payload with status ['bogus']
    stores that status. *)
Lemma upsert_stores_any_status :
  Forall status_ok (file empty_world) ∧
  (λ r, dict_get r "status") <$> file (after (CallUpsert [task_a_bogus]) empty_world)
  = [VStr "bogus"] ∧
  ¬ Forall status_ok (file (after (CallUpsert [task_a_bogus]) empty_world)).
Proof.
  assert ((λ r, dict_get r "status")
            <$> file (after (CallUpsert [task_a_bogus]) empty_world)
          = [VStr "bogus"]) as Hfields by (vm_compute; reflexivity).
  split; [constructor|]. split; [done|]. intros Hall.
  destruct (file (after (CallUpsert [task_a_bogus]) empty_world)) as [|r rows];
    [discriminate|].
  injection Hfields as Hst _. apply Forall_inv in Hall as (s & Hs & Hin).
  rewrite Hst in Hs. injection Hs as <-.
  apply allowed_iff in Hin. by destruct Hin as [?|[?|[?|?]]].
Qed.

Lemma status_stays_enumerated_witness :
  Forall status_ok (file (after (CallUpsert [task_a; task_a_done]) (World dup_rows 0))) ∧
  ∀ t' w', run (update_task_status "A" "archived") (World dup_rows 0) = (Ok t', w') →
           status_ok t'.
Proof.
  destruct (status_stays_enumerated (World dup_rows 0)) as [Hset Hkeep]. split.
  - apply Hkeep; [|apply sample_rows_status].
    constructor; [left; reflexivity|]. constructor; [|constructor].
    right. exists "done". split; [reflexivity|]. apply allowed_iff. tauto.
  - intros t' w' Hrun. by apply (Hset "A" "archived" t' w').
Defined.

(** C3, the failing input: a batch that names the id ["a"] twice, upserted
    into the empty store, is stored as two records with that id; the
    same payload upserted by two calls in a row is stored once. *)
Lemma upsert_repeated_id_stored_twice :
  (run (save_extracted_tasks [task_a; task_a]) empty_world).1 = Ok 2 ∧
  id_keys (file (after (CallUpsert [task_a; task_a]) empty_world))
  = [HStr "a"; HStr "a"] ∧
  id_keys (file (run_calls [CallUpsert [task_a]; CallUpsert [task_a]] empty_world))
  = [HStr "a"].
Proof. repeat split; vm_compute; reflexivity. Qed.

(** C5, counterexample: two records due the same day, the first with a
    null [due_time], the second at ["23:59"]; the query returns them in
    that order, the null one before the non-null one. *)
Lemma null_due_time_not_last :
  Forall sched_typed [midnight_null; midnight_last] ∧
  (run (get_tasks_by_date_range "2024-01-01" "2024-01-31" None None true)
     (World [midnight_null; midnight_last] 0)).1 = Ok [midnight_null; midnight_last] ∧
  ¬ Sorted null_last_le [midnight_null; midnight_last].
Proof.
  split; [repeat constructor|]. split; [vm_compute; reflexivity|].
  intros Hsorted. apply Sorted_inv in Hsorted as [_ Hhd].
  apply HdRel_inv in Hhd. destruct Hhd as [Hlt|[_ Hle]].
  - vm_compute in Hlt. discriminate.
  - vm_compute in Hle. discriminate.
Qed.

Lemma get_tasks_by_date_range_sorted_selection_witness :
  ∃ l,
    run (get_tasks_by_date_range "2024-01-01" "2024-01-02" None None true)
      (World dup_rows 0) = (Ok l, World dup_rows 0) ∧
    Sorted key_le l.
Proof.
  destruct (get_tasks_by_date_range_sorted_selection "2024-01-01" "2024-01-02"
              None None true (World dup_rows 0) sample_rows_typed)
    as (l & Hrun & _ & Hsorted).
  by exists l.
Defined.

(** C6, counterexample: no record carries the id, yet
    [update_task_status] with a status outside the enumeration raises
    [ValueError], not [KeyError]. *)
Lemma invalid_status_before_missing_id :
  Forall (λ t, ¬ has_id "missing" t) (file empty_world) ∧
  (run (update_task_status "missing" "bogus") empty_world).1 = Raise ValueError ∧
  (run (update_task_status "missing" "bogus") empty_world).1 ≠ Raise KeyError.
Proof.
  split; [constructor|]. split; [vm_compute; reflexivity|].
  vm_compute. discriminate.
Qed.

Lemma error_cases_witness :
  (run (perform (CallReschedule "nonexistent-id" "2024-01-01" None)) (World dup_rows 0)).2
  = World dup_rows 0.
Proof.
  apply (proj2 (proj2 (proj2 (proj2 (error_cases (World dup_rows 0) "A"))))
           (CallReschedule "nonexistent-id" "2024-01-01" None) KeyError).
  - intros [].
  - vm_compute. reflexivity.
Defined.

Lemma reschedule_task_frame_witness :
  ∃ t' w', run (reschedule_task "A" "2024-02-02" None) (World dup_rows 0) = (Ok t', w') ∧
           dict_get t' "due_time" = VNone.
Proof.
  destruct (reschedule_task_frame (World dup_rows 0) "A" "2024-02-02" None sample_has_A)
    as (i & t & t' & w' & _ & Hrun & _ & _ & Htime & _).
  by exists t', w'.
Defined.

(** C9, counterexample: two callers upsert the distinct ids ["a"] and
    ["b"]; both load the empty collection before either stores; both
    return, and the stored collection holds ["b"] only.  Run one after
    the other, the same calls leave both. *)
Lemma interleaved_upserts_lose_a_record :
  (interleave overlapping two_upserts empty_world).1 = [Ret tt; Ret tt] ∧
  id_keys (file (interleave overlapping two_upserts empty_world).2) = [HStr "b"] ∧
  id_keys (file (run_calls [CallUpsert [task_a]; CallUpsert [task_b]] empty_world))
  = [HStr "a"; HStr "b"].
Proof. repeat split; vm_compute; reflexivity. Qed.

Lemma sequential_upserts_lose_nothing_witness :
  ∃ recs,
    file (run_calls (CallUpsert <$> [[task_a]; [task_b]]) empty_world) = recs ∧
    Forall2 stored_from [task_a; task_b] recs.
Proof.
  destruct (sequential_upserts_lose_nothing [[task_a]; [task_b]] empty_world)
    as (recs & Hfile & Hst & _).
  - repeat constructor; eexists; reflexivity.
  - assert (id_keys (concat [[task_a]; [task_b]]) = [HStr "a"; HStr "b"]) as ->
      by reflexivity.
    apply NoDup_cons. split; [|apply NoDup_singleton].
    intros Hin%list_elem_of_singleton. discriminate.
  - intros k Hk. apply not_elem_of_nil.
  - exists recs. by rewrite Hfile.
Defined.

Lemma duplicate_ids_first_match_only_witness :
  ∃ t' w',
    run (delete_task "A" true) (World dup_rows 0) = (Ok tt, w') ∧
    file w' !! 0 = Some t' ∧ dict_get t' "status" = VStr "archived" ∧
    file w' !! 2 = Some (row "A" "2024-01-03" (VStr "10:30")).
Proof.
  destruct (duplicate_ids_first_match_only (World dup_rows 0) "A" 0 2
              (row "A" "2024-01-01" VNone) (row "A" "2024-01-03" (VStr "10:30")))
    as (_ & _ & _ & t' & w' & Hrun & Hi & Hst & Hj & _).
  - split; [reflexivity|]. split; [reflexivity|]. intros j t' Hlt. lia.
  - lia.
  - reflexivity.
  - reflexivity.
  - exists t', w'. auto.
Defined.

(** ** Witnesses of the further properties *)

Lemma sample_stored_a : stored_from task_a stored_a.
Proof.
  exists empty_world, normalized_a, (World [] 3).
  split; vm_compute; reflexivity.
Qed.

Lemma sample_restored_a : stored_from stored_a restored_a.
Proof.
  exists (World [] 3), stored_a, (World [] 5).
  split; vm_compute; reflexivity.
Qed.

Lemma get_tasks_by_note_sorted_selection_witness :
  ∃ l, run (get_tasks_by_note "n1" None) (World dup_rows 0) = (Ok l, World dup_rows 0) ∧
       Sorted key_le l.
Proof.
  destruct (get_tasks_by_note_sorted_selection "n1" None (World dup_rows 0)
              sample_rows_typed) as (l & Hrun & _ & Hsorted).
  by exists l.
Defined.

Lemma queries_keep_collection_order_on_ties_witness :
  match (run (get_tasks_by_note "n1" None) (World [midnight_null; midnight_last] 0)).1 with
  | Ok l =>
      filter (has_key ("2024-01-01", "23:59")) l =
      filter (has_key ("2024-01-01", "23:59"))
        (filter (of_note "n1" None) [midnight_null; midnight_last])
  | Raise _ => True
  end.
Proof.
  destruct (run (get_tasks_by_note "n1" None)
              (World [midnight_null; midnight_last] 0)).1 as [l|e] eqn:Hrun; [|exact I].
  apply (proj1 (queries_keep_collection_order_on_ties
                  (World [midnight_null; midnight_last] 0) ("2024-01-01", "23:59")
                  ltac:(repeat constructor)) "n1" None l Hrun).
Defined.

Lemma queries_never_write_witness :
  (run (get_tasks_by_note "n1" None) (World [numeric_due] 7)).2 = World [numeric_due] 7.
Proof.
  apply (proj1 (proj1 (queries_never_write (World [numeric_due] 7)) "n1" None)).
Defined.

Lemma non_string_due_date_breaks_range_queries_witness :
  run (get_tasks_by_date_range "2024-01-01" "2024-12-31" None None true)
    (World (dup_rows ++ [numeric_due]) 0)
  = (Raise TypeError, World (dup_rows ++ [numeric_due]) 0).
Proof.
  apply (non_string_due_date_breaks_range_queries _ numeric_due).
  - apply elem_of_app. right. apply list_elem_of_singleton. reflexivity.
  - reflexivity.
  - intros s. discriminate.
Defined.

Lemma archived_stays_in_range_queries_witness :
  ∃ t' w' l,
    run (delete_task "B" true) (World dup_rows 0) = (Ok tt, w') ∧
    dict_get t' "status" = VStr "archived" ∧
    run (get_tasks_by_date_range "2024-01-01" "2024-01-31" None None false) w'
      = (Ok l, w') ∧
    t' ∈ l.
Proof.
  destruct (archived_stays_in_range_queries (World dup_rows 0) "B" 1
              (row "B" "2024-01-02" VNone) "2024-01-01" "2024-01-31" None None)
    as (t' & w' & l & Hrun & _ & Hst & Hq & Hin).
  - apply sample_rows_typed.
  - split; [reflexivity|]. split; [reflexivity|].
    intros j t' Hlt Hj Hid. assert (j = 0) as -> by lia.
    injection Hj as <-. vm_compute in Hid. discriminate.
  - repeat split; try reflexivity; try discriminate.
  - by exists t', w', l.
Defined.

Lemma stored_record_fields_witness :
  stored_a !! "status" = Some (VStr "todo") ∧
  ∃ n, stored_a !! "updated_at" = Some (VStr (now n)).
Proof.
  destruct (stored_record_fields task_a stored_a sample_stored_a)
    as (_ & _ & _ & _ & Hstatus & _ & Hupd & _).
  split; [by apply Hstatus|done].
Defined.

Lemma reupsert_changes_only_updated_at_witness :
  restored_a !! "created_at" = stored_a !! "created_at".
Proof.
  apply (reupsert_changes_only_updated_at task_a stored_a restored_a
           sample_stored_a sample_restored_a).
  discriminate.
Defined.


Lemma save_extracted_tasks_never_shrinks_witness :
  (length dup_rows
   ≤ length (file (run (save_extracted_tasks [task_a; task_b]) (World dup_rows 0)).2))%nat.
Proof.
  apply (save_extracted_tasks_never_shrinks [task_a; task_b] (World dup_rows 0) 2).
  vm_compute. reflexivity.
Defined.

Lemma upsert_then_found_witness :
  ∃ w', run (delete_task "b" false)
          (after (CallUpsert [task_a; task_b]) (World dup_rows 0)) = (Ok tt, w').
Proof.
  destruct (upsert_then_found [task_a; task_b] task_b "b" (World dup_rows 0))
    as (_ & _ & _ & Hdel).
  - apply elem_of_cons. right. apply elem_of_cons. by left.
  - reflexivity.
  - apply (Hdel false).
Defined.

Lemma hard_delete_then_not_found_witness :
  run (reschedule_task "A" "2024-09-09" None) (after (CallDelete "A" false) (World dup_rows 0))
  = (Raise KeyError, after (CallDelete "A" false) (World dup_rows 0)).
Proof.
  apply (proj1 (hard_delete_then_not_found "A" (World dup_rows 0) sample_has_A)).
Defined.

Lemma resolve_absolute_ignores_base_witness :
  _resolve "/srv/data" "fs:///etc/passwd" = "/etc/passwd".
Proof.
  apply (proj2 (resolve_absolute_ignores_base "/srv/data" "/etc/passwd" eq_refl)).
Defined.


Lemma non_string_id_is_unreachable_witness :
  null_id ∈ file (after (CallDelete "None" false) (World (dup_rows ++ [null_id]) 0)).
Proof.
  apply non_string_id_is_unreachable.
  - intros [].
  - apply elem_of_app. right. apply list_elem_of_singleton. reflexivity.
  - intros s. discriminate.
Defined.

(** ** Completion, creation time and deletion on sample data *)

(** C1, counterexample: an upsert of a payload with status ['done'] and
    no [completed_at], into the empty store, leaves a record that is
    done with a null [completed_at]; and a soft delete of a record that
    is done leaves it archived with its [completed_at] still set. *)
Lemma completion_broken_by_upsert_and_soft_delete :
  (Forall completed_inv (file empty_world) ∧
   (λ r, (dict_get r "status", dict_get r "completed_at"))
     <$> file (after (CallUpsert [task_a_done]) empty_world) = [(VStr "done", VNone)] ∧
   ¬ Forall completed_inv (file (after (CallUpsert [task_a_done]) empty_world))) ∧
  (Forall completed_inv (file (World [done_row] 0)) ∧
   (λ r, (dict_get r "status", dict_get r "completed_at"))
     <$> file (after (CallDelete "D" true) (World [done_row] 0))
   = [(VStr "archived", VStr "2024-05-01T09:00:00")] ∧
   ¬ Forall completed_inv (file (after (CallDelete "D" true) (World [done_row] 0)))).
Proof.
  assert ((λ r, (dict_get r "status", dict_get r "completed_at"))
            <$> file (after (CallUpsert [task_a_done]) empty_world)
          = [(VStr "done", VNone)]) as Hupsert by (vm_compute; reflexivity).
  assert ((λ r, (dict_get r "status", dict_get r "completed_at"))
            <$> file (after (CallDelete "D" true) (World [done_row] 0))
          = [(VStr "archived", VStr "2024-05-01T09:00:00")]) as Hsoft
    by (vm_compute; reflexivity).
  split.
  - split; [constructor|]. split; [done|]. intros Hall.
    destruct (file (after (CallUpsert [task_a_done]) empty_world)) as [|r rows];
      [discriminate|].
    injection Hupsert as Hst Hco _. apply Forall_inv in Hall as [_ Hinv].
    apply Hinv in Hst. by rewrite Hco in Hst.
  - split; [repeat constructor; by vm_compute|]. split; [done|]. intros Hall.
    destruct (file (after (CallDelete "D" true) (World [done_row] 0))) as [|r rows];
      [discriminate|].
    injection Hsoft as Hst Hco _. apply Forall_inv in Hall as [Hinv _].
    rewrite Hco, Hst in Hinv. by discriminate Hinv.
Qed.

Lemma completed_at_follows_status_witness :
  Forall completed_inv (file (after (CallDelete "A" true) (World dup_rows 0))) ∧
  Forall completed_inv (file (after (CallUpsert [task_a]) (World dup_rows 0))) ∧
  ∀ t' w', run (update_task_status "A" "done") (World dup_rows 0) = (Ok t', w') →
           completed_inv t'.
Proof.
  destruct (completed_at_follows_status (World dup_rows 0)) as (Hset & Hkeep & _).
  split; [|split].
  - apply Hkeep; [|apply sample_rows_completed].
    intros i t (Hl & _). destruct i as [|[|[|i]]]; try discriminate;
      injection Hl as <-; reflexivity.
  - apply Hkeep; [|apply sample_rows_completed].
    constructor; [|constructor]. split; intros Hx; vm_compute in Hx; congruence.
  - intros t' w' Hrun. by apply (Hset "A" "done" t' w').
Defined.





End Samples.
